(** * The item service of [app.py]: a shallow embedding

    [app.py] is a FastAPI application over one SQLAlchemy table, [items].
    The embedding below follows the file top to bottom:

    - JSON request bodies as [json.loads] delivers them;
    - the two pydantic models, [Item] and [ItemUpdate], each with its values
      and the set of fields the body supplied ([model_fields_set]), so that
      [model_dump(exclude_unset=True)] can be written as the code uses it;
    - the mapped class [ItemDB] and the table behind it, with the id sequence
      PostgreSQL attaches to an [Integer] primary key, the range of that
      column and the text values the server refuses;
    - the seven route handlers, written with explicit passing of the
      database and with the exceptions they raise as results;
    - the framework around a handler: validation of the body before the
      handler runs (422), [HTTPException] turned into its status and detail,
      any other exception into 500, and the returned object passed through
      [response_model]. *)

From stdpp Require Import gmap strings list pretty.
From Stdlib Require Import PrimFloat.

#[local] Open Scope Z_scope.
Set Warnings "-register-all".

(** ** JSON *)

(** A parsed JSON document.  Python's [json] keeps integer and fractional
    number literals apart ([int] and [float]); a [float] is an IEEE binary64
    value, which is what [PrimFloat.float] is.  The service only stores and
    returns prices, it never computes with them. *)
Inductive json : Type :=
  | JNull
  | JBool (b : bool)
  | JInt (z : Z)
  | JFloat (f : float)
  | JStr (s : string)
  | JArr (elements : list json)
  | JObj (members : list (string * json)).

(** Lookup in a parsed object.  When a key is repeated in the document the
    last occurrence is the one the resulting [dict] holds. *)
Fixpoint dict_get (key : string) (members : list (string * json)) : option json :=
  match members with
  | [] => None
  | (k, v) :: rest =>
      match dict_get key rest with
      | Some v' => Some v'
      | None => if decide (k = key) then Some v else None
      end
  end.

(** ** Scalar validation

    The field types of the two models are [int], [str], [float] and [bool].
    How pydantic validates an input against each of them is library
    behaviour (it accepts more than values of the exact type); the
    development is parametric in these four validators and relies only on
    the fact that a value already of the field's type is accepted as it
    is. *)
Class Scalars := {
  validate_int : json → option Z;
  validate_str : json → option string;
  validate_float : json → option float;
  validate_bool : json → option bool;
  validate_int_exact z : validate_int (JInt z) = Some z;
  validate_str_exact s : validate_str (JStr s) = Some s;
  validate_float_exact f : validate_float (JFloat f) = Some f;
  validate_bool_exact b : validate_bool (JBool b) = Some b;
}.

(** The validators that accept the exact type only. *)
Definition exact_int (v : json) : option Z :=
  match v with JInt z => Some z | _ => None end.
Definition exact_str (v : json) : option string :=
  match v with JStr s => Some s | _ => None end.
Definition exact_float (v : json) : option float :=
  match v with JFloat f => Some f | _ => None end.
Definition exact_bool (v : json) : option bool :=
  match v with JBool b => Some b | _ => None end.

Definition exact_types : Scalars :=
  {| validate_int := exact_int;
     validate_str := exact_str;
     validate_float := exact_float;
     validate_bool := exact_bool;
     validate_int_exact := λ _, eq_refl;
     validate_str_exact := λ _, eq_refl;
     validate_float_exact := λ _, eq_refl;
     validate_bool_exact := λ _, eq_refl |}.

(** ** Fields, attributes and validation errors *)

(** The column and field names shared by [ItemDB], [Item] and [ItemUpdate]. *)
Inductive field : Type := f_id | f_name | f_description | f_price | f_available.

#[global] Instance field_eq_dec : EqDecision field.
Proof. solve_decision. Defined.

Definition field_name (f : field) : string :=
  match f with
  | f_id => "id"
  | f_name => "name"
  | f_description => "description"
  | f_price => "price"
  | f_available => "available"
  end.

(** One entry of the dict that [model_dump] returns: a key together with a
    value of that key's type.  [None] is Python's [None]. *)
Inductive attr : Type :=
  | a_id (v : option Z)
  | a_name (v : option string)
  | a_description (v : option string)
  | a_price (v : option float)
  | a_available (v : option bool).

Definition key (a : attr) : field :=
  match a with
  | a_id _ => f_id
  | a_name _ => f_name
  | a_description _ => f_description
  | a_price _ => f_price
  | a_available _ => f_available
  end.

(** The entry for the key [f] in a dict of such entries, if there is one. *)
Definition dict_attr (f : field) (d : list attr) : option attr :=
  last (filter (λ a, key a = f) d).

(** Where a body is wrong (the body itself, or one of its fields) and how. *)
Inductive loc : Type := in_body | in_field (f : field).
Inductive error_type : Type := missing | invalid.

Definition errors : Type := list (loc * error_type).

(** The outcome of looking one field up in the body: not there, there with a
    value of the field's type, or there with something else. *)
Inductive parsed (A : Type) : Type :=
  | Unset
  | Set_to (a : A)
  | Bad.
Arguments Unset {A}.
Arguments Set_to {A} a.
Arguments Bad {A}.

(** A field of type [T]: the key, when present, must validate as [T]. *)
Definition parse {A} (validate : json → option A) (f : field)
    (members : list (string * json)) : parsed A :=
  match dict_get (field_name f) members with
  | None => Unset
  | Some v => match validate v with Some a => Set_to a | None => Bad end
  end.

(** A field of type [Optional[T]]: [null] is accepted and gives [None]. *)
Definition optional {A} (validate : json → option A) (v : json) : option (option A) :=
  match v with
  | JNull => Some None
  | _ => Some <$> validate v
  end.

(** The fields that were given a value, in the order of declaration. *)
Definition set_field {A} (f : field) (p : parsed A) : list field :=
  match p with Set_to _ => [f] | _ => [] end.

(** The error of a field that may be left out, and of one that may not. *)
Definition check_optional {A} (f : field) (p : parsed A) : errors :=
  match p with Bad => [(in_field f, invalid)] | _ => [] end.
Definition check_required {A} (f : field) (p : parsed A) : errors :=
  match p with
  | Bad => [(in_field f, invalid)]
  | Unset => [(in_field f, missing)]
  | Set_to _ => []
  end.

(** The body gave the field a value. *)
Definition is_set {A} (p : parsed A) : Prop :=
  match p with Set_to _ => True | _ => False end.

(** The value of a field, or its default when the body left it out. *)
Definition value_or {A} (d : A) (p : parsed A) : A :=
  match p with Set_to a => a | _ => d end.

(** ** The pydantic models *)

(** [class Item(BaseModel)]: [name] and [price] are required, [id] and
    [description] default to [None], [available] to [True].  An instance
    remembers which fields the input supplied. *)
Module Item.
Record t : Type := mk {
  id : option Z;
  name : string;
  description : option string;
  price : float;
  available : bool;
  model_fields_set : list field;
}.

Section item_validation.
Context {scalars : Scalars}.

(** The annotations of the fields: what each of them accepts. *)
Definition accepts (f : field) (v : json) : Prop :=
  match f with
  | f_id => is_Some (optional validate_int v)
  | f_name => is_Some (validate_str v)
  | f_description => is_Some (optional validate_str v)
  | f_price => is_Some (validate_float v)
  | f_available => is_Some (validate_bool v)
  end.

(** Validation of a request body.  Keys that are not fields of the model
    are ignored. *)
Definition model_validate (input : json) : errors + t :=
  match input with
  | JObj members =>
      let p_id := parse (optional validate_int) f_id members in
      let p_name := parse validate_str f_name members in
      let p_description := parse (optional validate_str) f_description members in
      let p_price := parse validate_float f_price members in
      let p_available := parse validate_bool f_available members in
      let errs :=
        check_optional f_id p_id ++ check_required f_name p_name ++
        check_optional f_description p_description ++
        check_required f_price p_price ++
        check_optional f_available p_available in
      match errs, p_name, p_price with
      | [], Set_to n, Set_to p =>
          inr {| id := value_or None p_id;
                 name := n;
                 description := value_or None p_description;
                 price := p;
                 available := value_or true p_available;
                 model_fields_set :=
                   set_field f_id p_id ++ set_field f_name p_name ++
                   set_field f_description p_description ++
                   set_field f_price p_price ++
                   set_field f_available p_available |}
      | _, _, _ => inl errs
      end
  | _ => inl [(in_body, invalid)]
  end.
End item_validation.

(** [model_dump()]: every field, in the order of declaration. *)
Definition model_dump (item : t) : list attr :=
  [a_id (id item); a_name (Some (name item)); a_description (description item);
   a_price (Some (price item)); a_available (Some (available item))].

(** [model_dump(exclude_unset=True)]: the fields the input supplied. *)
Definition model_dump_exclude_unset (item : t) : list attr :=
  filter (λ a, key a ∈ model_fields_set item) (model_dump item).

(** A float in a response: JSON has no NaN and no infinity, they are
    written as [null]. *)
Definition float_to_json (f : float) : json :=
  if is_finite f then JFloat f else JNull.

(** The JSON of a response: all five fields, [None] as [null]. *)
Definition to_json (item : t) : json :=
  JObj [("id"%string, from_option JInt JNull (id item));
        ("name"%string, JStr (name item));
        ("description"%string, from_option JStr JNull (description item));
        ("price"%string, float_to_json (price item));
        ("available"%string, JBool (available item))].
End Item.

(** [class ItemUpdate(BaseModel)]: the four fields other than [id], each
    optional with default [None]. *)
Module ItemUpdate.
Record t : Type := mk {
  name : option string;
  description : option string;
  price : option float;
  available : option bool;
  model_fields_set : list field;
}.

Section item_update_validation.
Context {scalars : Scalars}.

(** The annotations of the fields; [id] is not a field of this model. *)
Definition accepts (f : field) (v : json) : Prop :=
  match f with
  | f_id => True
  | f_name => is_Some (optional validate_str v)
  | f_description => is_Some (optional validate_str v)
  | f_price => is_Some (optional validate_float v)
  | f_available => is_Some (optional validate_bool v)
  end.

Definition model_validate (input : json) : errors + t :=
  match input with
  | JObj members =>
      let p_name := parse (optional validate_str) f_name members in
      let p_description := parse (optional validate_str) f_description members in
      let p_price := parse (optional validate_float) f_price members in
      let p_available := parse (optional validate_bool) f_available members in
      let errs :=
        check_optional f_name p_name ++
        check_optional f_description p_description ++
        check_optional f_price p_price ++
        check_optional f_available p_available in
      match errs with
      | [] =>
          inr {| name := value_or None p_name;
                 description := value_or None p_description;
                 price := value_or None p_price;
                 available := value_or None p_available;
                 model_fields_set :=
                   set_field f_name p_name ++
                   set_field f_description p_description ++
                   set_field f_price p_price ++
                   set_field f_available p_available |}
      | _ => inl errs
      end
  | _ => inl [(in_body, invalid)]
  end.
End item_update_validation.

Definition model_dump (item : t) : list attr :=
  [a_name (name item); a_description (description item);
   a_price (price item); a_available (available item)].

Definition model_dump_exclude_unset (item : t) : list attr :=
  filter (λ a, key a ∈ model_fields_set item) (model_dump item).
End ItemUpdate.

(** ** The mapped class and the table *)

(** [class ItemDB(Base)]: an object with the five column attributes.  Every
    attribute can hold [None]: [id] until the row is inserted, the others
    because their columns are nullable. *)
Module ItemDB.
Record t : Type := mk {
  id : option Z;
  name : option string;
  description : option string;
  price : option float;
  available : option bool;
}.

(** [ItemDB()]: no attribute has a value yet. *)
Definition new : t :=
  {| id := None; name := None; description := None; price := None; available := None |}.

(** [setattr(db_item, key, value)]. *)
Definition setattr (db_item : t) (a : attr) : t :=
  match a with
  | a_id v =>
      {| id := v; name := name db_item; description := description db_item;
         price := price db_item; available := available db_item |}
  | a_name v =>
      {| id := id db_item; name := v; description := description db_item;
         price := price db_item; available := available db_item |}
  | a_description v =>
      {| id := id db_item; name := name db_item; description := v;
         price := price db_item; available := available db_item |}
  | a_price v =>
      {| id := id db_item; name := name db_item; description := description db_item;
         price := v; available := available db_item |}
  | a_available v =>
      {| id := id db_item; name := name db_item; description := description db_item;
         price := price db_item; available := v |}
  end.

(** [getattr(db_item, key)], paired with its key. *)
Definition getattr (db_item : t) (f : field) : attr :=
  match f with
  | f_id => a_id (id db_item)
  | f_name => a_name (name db_item)
  | f_description => a_description (description db_item)
  | f_price => a_price (price db_item)
  | f_available => a_available (available db_item)
  end.

(** The constructor of [ItemDB] applied to a dict of keyword arguments. *)
Definition init (kwargs : list attr) : t := foldl setattr new kwargs.
End ItemDB.

(** A row of [items] without its primary key, which is the key of the map
    below. *)
Record row : Type := {
  c_name : option string;
  c_description : option string;
  c_price : option float;
  c_available : option bool;
}.

(** [Integer] is a 32-bit column, and the driver refuses a query parameter
    outside its range. *)
Definition in_int4 (k : Z) : bool :=
  (-2147483648 <=? k) && (k <=? 2147483647).
Arguments in_int4 : simpl never.

(** The rows of [items] by primary key.  Only keys within the column's range
    count: such a key is the only kind a row can be stored or found under,
    and the operations below leave the others alone. *)
Record table : Type := Table { rows : gmap Z row }.

Definition view (t : table) : gmap Z row :=
  filter (λ kr, in_int4 kr.1 = true) (rows t).

#[global] Instance table_lookup : Lookup Z row table := λ k t, view t !! k.
#[global] Instance table_insert : Insert Z row table := λ k r t,
  if in_int4 k then Table (<[k := r]> (rows t)) else t.
#[global] Instance table_delete : Delete Z table := λ k t,
  if in_int4 k then Table (delete k (rows t)) else t.
#[global] Instance table_empty : Empty table := Table ∅.
#[global] Instance table_singleton : SingletonM Z row table := λ k r,
  <[k := r]> ∅.
#[global] Instance table_dom : Dom table (gset Z) := λ t, dom (view t).
#[global] Instance table_size : Size table := λ t, size (view t).

(** The rows with their keys, in the order the table gives them. *)
Definition table_to_list (t : table) : list (Z * row) := map_to_list (view t).

(** The database behind [engine], which [DATABASE_URL] makes a PostgreSQL
    one: the table [items], keyed by [id], and the sequence that PostgreSQL
    creates for an [Integer] primary key ([items_id_seq] holds the last
    value the sequence gave out). *)
Record database : Type := {
  items : table;
  items_id_seq : Z;
}.

(** A string is the UTF-8 encoding of the Python [str]; the code point
    U+0000 is the byte zero. *)
Fixpoint has_nul (s : string) : bool :=
  match s with
  | EmptyString => false
  | String a s => bool_decide (a = Ascii.zero) || has_nul s
  end.

(** Which values the server stores in the two text columns is its own
    behaviour ([name] carries an index, [description] does not); the
    development is parametric in it and relies only on the fact that a
    string holding U+0000 is refused. *)
Class Postgres := {
  stores_name : string → bool;
  stores_description : string → bool;
  stores_name_nul s : has_nul s = true → stores_name s = false;
  stores_description_nul s : has_nul s = true → stores_description s = false;
}.

(** The server that refuses nothing else. *)
#[global] Instance postgres_text : Postgres :=
  {| stores_name := λ s, negb (has_nul s);
     stores_description := λ s, negb (has_nul s);
     stores_name_nul := λ s H,
       @eq_ind_r bool true (λ b, negb b = false) eq_refl (has_nul s) H;
     stores_description_nul := λ s H,
       @eq_ind_r bool true (λ b, negb b = false) eq_refl (has_nul s) H |}.

(** [Base.metadata.create_all] on a fresh database. *)
Definition create_all : database := {| items := ∅; items_id_seq := 0 |}.

(** The object the ORM builds from the row with primary key [k]. *)
Definition load (k : Z) (r : row) : ItemDB.t :=
  {| ItemDB.id := Some k; ItemDB.name := c_name r;
     ItemDB.description := c_description r; ItemDB.price := c_price r;
     ItemDB.available := c_available r |}.

(** The columns an UPDATE writes for an object. *)
Definition columns (db_item : ItemDB.t) : row :=
  {| c_name := ItemDB.name db_item; c_description := ItemDB.description db_item;
     c_price := ItemDB.price db_item; c_available := ItemDB.available db_item |}.

(** The columns an INSERT writes: [available] has [default=True], used when
    the object was given no value for it. *)
Definition inserted_columns (db_item : ItemDB.t) : row :=
  {| c_name := ItemDB.name db_item; c_description := ItemDB.description db_item;
     c_price := ItemDB.price db_item;
     c_available := Some (default true (ItemDB.available db_item)) |}.

(** What a handler can raise. *)
Inductive exception : Type :=
  | HTTPException (status_code : Z) (detail : string)
  | DataError
  | IntegrityError
  | FlushError
  | InvalidRequestError.

(** A computation on the database that returns or raises. *)
Definition io (A : Type) : Type := database → (exception + A) * database.

(** The row with primary key [item_id], as an object. *)
Definition lookup_item (item_id : Z) (db : database) : option ItemDB.t :=
  load item_id <$> items db !! item_id.

Definition ret {A} (a : A) : io A := λ db, (inr a, db).
Definition raise {A} (e : exception) : io A := λ db, (inl e, db).
Definition bind {A B} (m : io A) (k : A → io B) : io B := λ db,
  match m db with
  | (inl e, db') => (inl e, db')
  | (inr a, db') => k a db'
  end.

Notation "'await' x := m 'in' k" := (bind m (λ x, k))
  (at level 10, x name, m at level 100, k at level 200,
   format "'[v' 'await'  x  :=  m  'in' '/' k ']'").

Section session.
Context {postgres : Postgres}.

(** [db.execute(select(ItemDB).filter(ItemDB.id == item_id))] followed by
    [scalar_one_or_none()]; [id] is the primary key, so there is at most one
    row.  The driver refuses an [item_id] outside the range of the column
    before the query is sent. *)
Definition scalar_one_or_none (item_id : Z) : io (option ItemDB.t) := λ db,
  if in_int4 item_id then (inr (lookup_item item_id db), db)
  else (inl DataError, db).

(** [db.execute(select(ItemDB))] followed by [scalars().all()]. *)
Definition scalars_all : io (list ItemDB.t) := λ db,
  (inr ((λ kr, load kr.1 kr.2) <$> table_to_list (items db)), db).

(** The INSERT is refused when it carries a text the server does not
    store. *)
Definition refuses_insert (db_item : ItemDB.t) : bool :=
  negb (from_option stores_name true (ItemDB.name db_item) &&
        from_option stores_description true (ItemDB.description db_item)).

(** [db.add(db_item)] and [db.commit()]: the INSERT.  With an id in the
    object the row goes under that id and the sequence is not touched;
    without one the sequence is advanced and gives the id (the advance is
    kept when the INSERT then fails on the key).  A text the server does not
    store and an id outside the range of the column are refused, and a
    primary key that is taken is a unique violation.  Returns the primary
    key of the new row. *)
Definition commit_add (db_item : ItemDB.t) : io Z := λ db,
  if refuses_insert db_item then (inl DataError, db) else
  match ItemDB.id db_item with
  | Some k =>
      if negb (in_int4 k) then (inl DataError, db) else
      match items db !! k with
      | Some _ => (inl IntegrityError, db)
      | None =>
          (inr k, {| items := <[k := inserted_columns db_item]> (items db);
                     items_id_seq := items_id_seq db |})
      end
  | None =>
      let k := items_id_seq db + 1 in
      if negb (in_int4 k) then (inl DataError, db) else
      match items db !! k with
      | Some _ => (inl IntegrityError, {| items := items db; items_id_seq := k |})
      | None =>
          (inr k, {| items := <[k := inserted_columns db_item]> (items db);
                     items_id_seq := k |})
      end
  end.

(** The UPDATE carries the attributes whose value is not the one the object
    was loaded with; it is refused when one of them is an id outside the
    range of the column or a text the server does not store. *)
Definition refuses_update (loaded db_item : ItemDB.t) : bool :=
  bool_decide (ItemDB.id db_item ≠ ItemDB.id loaded) &&
    negb (from_option in_int4 true (ItemDB.id db_item))
  || bool_decide (ItemDB.name db_item ≠ ItemDB.name loaded) &&
    negb (from_option stores_name true (ItemDB.name db_item))
  || bool_decide (ItemDB.description db_item ≠ ItemDB.description loaded) &&
    negb (from_option stores_description true (ItemDB.description db_item)).

(** [db.commit()] with a modified object that was loaded from the row
    [item_id]: the UPDATE.  The object's [id] is written like any other
    column, so the row moves when it differs from [item_id]; [None] is
    refused by the ORM and a taken id by the database.  Returns the primary
    key of the row afterwards. *)
Definition commit_dirty (item_id : Z) (loaded db_item : ItemDB.t) : io Z := λ db,
  if refuses_update loaded db_item then (inl DataError, db) else
  match ItemDB.id db_item with
  | None => (inl FlushError, db)
  | Some k =>
      if decide (k = item_id) then
        (inr k, {| items := <[k := columns db_item]> (items db);
                   items_id_seq := items_id_seq db |})
      else
        match items db !! k with
        | Some _ => (inl IntegrityError, db)
        | None =>
            (inr k, {| items := <[k := columns db_item]> (delete item_id (items db));
                       items_id_seq := items_id_seq db |})
        end
  end.

(** [db.delete(db_item)] and [db.commit()]: the DELETE. *)
Definition commit_delete (item_id : Z) : io () := λ db,
  (inr (), {| items := delete item_id (items db); items_id_seq := items_id_seq db |}).

(** [db.refresh(db_item)]: the object is read again by its primary key. *)
Definition refresh (k : Z) : io ItemDB.t := λ db,
  match lookup_item k db with
  | Some db_item => (inr db_item, db)
  | None => (inl InvalidRequestError, db)
  end.

(** ** The route handlers *)

(** [GET /]. *)
Definition root : io json :=
  ret (JObj [("message"%string, JStr "Service is running")]).

(** [GET /items]. *)
Definition get_items : io (list ItemDB.t) :=
  await items := scalars_all in
  ret items.

(** [GET /items/{item_id}]. *)
Definition get_item (item_id : Z) : io ItemDB.t :=
  await item := scalar_one_or_none item_id in
  match item with
  | None => raise (HTTPException 404 "Item not found")
  | Some item => ret item
  end.

(** [POST /items]. *)
Definition create_item (item : Item.t) : io ItemDB.t :=
  let db_item := ItemDB.init (Item.model_dump_exclude_unset item) in
  await k := commit_add db_item in
  refresh k.

(** [PUT /items/{item_id}]. *)
Definition update_item (item_id : Z) (updated_item : Item.t) : io ItemDB.t :=
  await db_item := scalar_one_or_none item_id in
  match db_item with
  | None => raise (HTTPException 404 "Item not found")
  | Some loaded =>
      let db_item :=
        foldl ItemDB.setattr loaded (Item.model_dump_exclude_unset updated_item) in
      await k := commit_dirty item_id loaded db_item in
      refresh k
  end.

(** [PATCH /items/{item_id}]. *)
Definition patch_item (item_id : Z) (item_data : ItemUpdate.t) : io ItemDB.t :=
  await db_item := scalar_one_or_none item_id in
  match db_item with
  | None => raise (HTTPException 404 "Item not found")
  | Some loaded =>
      let db_item :=
        foldl ItemDB.setattr loaded (ItemUpdate.model_dump_exclude_unset item_data) in
      await k := commit_dirty item_id loaded db_item in
      refresh k
  end.

(** [DELETE /items/{item_id}]. *)
Definition delete_item (item_id : Z) : io json :=
  await db_item := scalar_one_or_none item_id in
  match db_item with
  | None => raise (HTTPException 404 "Item not found")
  | Some _ =>
      await _u := commit_delete item_id in
      ret (JObj [("detail"%string, JStr ("Item " +:+ pretty item_id +:+ " deleted"))])
  end.
End session.

(** ** The application *)

Inductive request : Type :=
  | GET_root
  | GET_items
  | GET_item (item_id : Z)
  | POST_items (body : json)
  | PUT_item (item_id : Z) (body : json)
  | PATCH_item (item_id : Z) (body : json)
  | DELETE_item (item_id : Z).

(** The body of a response: JSON written by the application, the list of
    validation errors the framework reports with a 422, or the framework's
    answer to an exception that is not an [HTTPException]. *)
Inductive content : Type :=
  | JSON (j : json)
  | RequestValidationError (errs : errors)
  | InternalServerError.

Record response : Type := {
  status : Z;
  content_of : content;
}.

(** [response_model=Item] with [from_attributes=True]: the returned object
    is validated as an [Item] ([name], [price] and [available] must not be
    [None]) and then written as JSON. *)
Definition from_attributes (db_item : ItemDB.t) : option Item.t :=
  match ItemDB.name db_item, ItemDB.price db_item, ItemDB.available db_item with
  | Some n, Some p, Some a =>
      Some {| Item.id := ItemDB.id db_item; Item.name := n;
              Item.description := ItemDB.description db_item;
              Item.price := p; Item.available := a;
              Item.model_fields_set :=
                [f_id; f_name; f_description; f_price; f_available] |}
  | _, _, _ => None
  end.

Definition response_Item (db_item : ItemDB.t) : option json :=
  Item.to_json <$> from_attributes db_item.

(** [response_model=List[Item]]. *)
Definition response_List_Item (items : list ItemDB.t) : option json :=
  JArr <$> mapM response_Item items.

(** What the framework makes of a handler's outcome. *)
Definition respond {A} (encode : A → option json)
    (outcome : (exception + A) * database) : response * database :=
  match outcome with
  | (inr a, db) =>
      match encode a with
      | Some j => ({| status := 200; content_of := JSON j |}, db)
      | None => ({| status := 500; content_of := InternalServerError |}, db)
      end
  | (inl (HTTPException status_code detail), db) =>
      ({| status := status_code;
          content_of := JSON (JObj [("detail"%string, JStr detail)]) |}, db)
  | (inl _, db) => ({| status := 500; content_of := InternalServerError |}, db)
  end.

Definition unprocessable (errs : errors) (db : database) : response * database :=
  ({| status := 422; content_of := RequestValidationError errs |}, db).

(** The response of every route to an id that has no row. *)
Definition not_found : response :=
  {| status := 404;
     content_of := JSON (JObj [("detail"%string, JStr "Item not found")]) |}.

(** The response to an exception that is not an [HTTPException]. *)
Definition internal_server_error : response :=
  {| status := 500; content_of := InternalServerError |}.

Section app.
Context {scalars : Scalars} {postgres : Postgres}.

(** One request served on the database [db]: the response and the database
    afterwards. *)
Definition app (req : request) (db : database) : response * database :=
  match req with
  | GET_root => respond Some (root db)
  | GET_items => respond response_List_Item (get_items db)
  | GET_item item_id => respond response_Item (get_item item_id db)
  | POST_items body =>
      match Item.model_validate body with
      | inl errs => unprocessable errs db
      | inr item => respond response_Item (create_item item db)
      end
  | PUT_item item_id body =>
      match Item.model_validate body with
      | inl errs => unprocessable errs db
      | inr updated_item => respond response_Item (update_item item_id updated_item db)
      end
  | PATCH_item item_id body =>
      match ItemUpdate.model_validate body with
      | inl errs => unprocessable errs db
      | inr item_data => respond response_Item (patch_item item_id item_data db)
      end
  | DELETE_item item_id => respond Some (delete_item item_id db)
  end.

(** A sequence of requests served one after the other. *)
Fixpoint serve (reqs : list request) (db : database) : list response * database :=
  match reqs with
  | [] => ([], db)
  | req :: reqs =>
      let '(resp, db') := app req db in
      let '(resps, db'') := serve reqs db' in
      (resp :: resps, db'')
  end.

(** The errors the framework finds in the body of a request, if any; the
    routes without a body have none. *)
Definition validation_errors (req : request) : option errors :=
  match req with
  | POST_items body | PUT_item _ body =>
      match Item.model_validate body with inl errs => Some errs | inr _ => None end
  | PATCH_item _ body =>
      match ItemUpdate.model_validate body with inl errs => Some errs | inr _ => None end
  | _ => None
  end.
End app.

(** The body of a create or full update names an id. *)
Definition carries_id (req : request) : Prop :=
  match req with
  | POST_items (JObj members) | PUT_item _ (JObj members) =>
      is_Some (dict_get "id" members)
  | _ => False
  end.

(** The id of the item a response shows, when it shows one. *)
Definition response_id (resp : response) : option Z :=
  match content_of resp with
  | JSON (JObj ((k, JInt z) :: _)) => if decide (k = "id"%string) then Some z else None
  | _ => None
  end.

(** The body of a create or full update validates and names the id [X]. *)
Definition names_id {scalars : Scalars} (X : Z) (req : request) : bool :=
  match req with
  | POST_items body | PUT_item _ body =>
      match Item.model_validate body with
      | inr item => bool_decide (Item.id item = Some X)
      | inl _ => false
      end
  | _ => false
  end.

(** The id a JSON object holds under the key [id]. *)
Definition shown_id (j : json) : option Z :=
  match j with
  | JObj members =>
      match dict_get "id" members with Some (JInt z) => Some z | _ => None end
  | _ => None
  end.

(** The ids of the items a response shows: the id of the one item, or the
    ids of all the items of a list. *)
Definition response_ids (resp : response) : list Z :=
  match content_of resp with
  | JSON (JArr elements) => omap shown_id elements
  | JSON j => option_list (shown_id j)
  | _ => []
  end.

(** An id with no row that the sequence has passed. *)
Definition retired (X : Z) (db : database) : Prop :=
  items db !! X = None ∧ X ≤ items_id_seq db.

(** ** Requests and states used below *)

(** The body of [test_create_item]. *)
Definition test_item : json :=
  JObj [("name"%string, JStr "Test Item"); ("price"%string, JFloat 10)].

(** A body that also names an id. *)
Definition with_id (k : Z) (n : string) (p : float) : json :=
  JObj [("id"%string, JInt k); ("name"%string, JStr n); ("price"%string, JFloat p)].

Definition ok (j : json) : response := {| status := 200; content_of := JSON j |}.

(** The response that shows an item with no description that is available. *)
Definition shown (k : Z) (n : string) (p : float) : response :=
  ok (JObj [("id"%string, JInt k); ("name"%string, JStr n);
            ("description"%string, JNull); ("price"%string, JFloat p);
            ("available"%string, JBool true)]).

(** A table with the single row [k], and the sequence at [k]. *)
Definition single (k : Z) (r : row) : database :=
  {| items := {[k := r]}; items_id_seq := k |}.

Definition plain_row (n : string) (p : float) : row :=
  {| c_name := Some n; c_description := None; c_price := Some p;
     c_available := Some true |}.

Definition stored_row : row :=
  {| c_name := Some "Test Item"; c_description := Some "as created";
     c_price := Some 10%float; c_available := Some false |}.

Definition updated_body : list (string * json) :=
  [("name"%string, JStr "Updated Item"); ("price"%string, JFloat 20)].

Definition updated_row : row :=
  {| c_name := Some "Updated Item"; c_description := Some "as created";
     c_price := Some 20%float; c_available := Some false |}.

Definition patch_body : list (string * json) := [("name"%string, JStr "B")].

Definition later_requests : list request :=
  [POST_items test_item; GET_item 1; POST_items (with_id 7 "C" 30);
   PUT_item 2 (JObj updated_body); PATCH_item 2 (JObj patch_body);
   DELETE_item 7; GET_items].

(** A name that holds the character U+0000. *)
Definition nul_name : string := "a" +:+ String Ascii.zero "b".

(** ** Notions used in the further properties *)

(** A row that [response_model=Item] accepts: [name], [price] and
    [available] are not NULL. *)
Definition complete (r : row) : Prop :=
  is_Some (c_name r) ∧ is_Some (c_price r) ∧ is_Some (c_available r).

Definition all_complete (db : database) : Prop :=
  ∀ k r, items db !! k = Some r → complete r.

(** The id in the path of a request, for the routes that have one. *)
Definition addressed (req : request) : option Z :=
  match req with
  | GET_item item_id | PUT_item item_id _ | PATCH_item item_id _
  | DELETE_item item_id => Some item_id
  | _ => None
  end.

(** A table with the rows 1 and 2. *)
Definition two_rows : database :=
  {| items := <[2 := plain_row "B" 20]> {[1 := plain_row "A" 10]};
     items_id_seq := 2 |}.

Definition null_name : list (string * json) := [("name"%string, JNull)].

Definition nameless_row : row :=
  {| c_name := None; c_description := None; c_price := Some 10%float;
     c_available := Some true |}.

(** * Properties *)

(** ** The table *)

Lemma view_insert (t : table) k r :
  in_int4 k = true → view (<[k := r]> t) = <[k := r]> (view t).
Proof.
  intros Hk. unfold insert at 1, table_insert. rewrite Hk. unfold view. simpl.
  by rewrite map_filter_insert_True.
Qed.

Lemma insert_out_of_range (t : table) k r :
  in_int4 k = false → <[k := r]> t = t.
Proof. intros Hk. unfold insert, table_insert. by rewrite Hk. Qed.

Lemma lookup_in_int4 (t : table) k r : t !! k = Some r → in_int4 k = true.
Proof.
  unfold lookup, table_lookup, view. by intros [_ ?]%map_lookup_filter_Some.
Qed.

Lemma lookup_out_of_range (t : table) k : in_int4 k = false → t !! k = None.
Proof.
  intros Hk. destruct (t !! k) as [r|] eqn:Hr; [|done].
  apply lookup_in_int4 in Hr. congruence.
Qed.

Lemma lookup_rows (t : table) k r : t !! k = Some r → rows t !! k = Some r.
Proof.
  unfold lookup at 1, table_lookup, view. by intros [? _]%map_lookup_filter_Some.
Qed.

Lemma view_delete (t : table) k : view (delete k t) = delete k (view t).
Proof.
  unfold delete at 1, table_delete. destruct (in_int4 k) eqn:Hk.
  - unfold view. simpl. by rewrite map_filter_delete.
  - symmetry. apply delete_id. by apply (lookup_out_of_range t).
Qed.

Lemma table_lookup_insert_eq (t : table) k r :
  in_int4 k = true → <[k := r]> t !! k = Some r.
Proof.
  intros Hk. unfold lookup, table_lookup. rewrite view_insert by done.
  apply lookup_insert_eq.
Qed.

Lemma table_lookup_insert_ne (t : table) k k' r :
  k ≠ k' → <[k := r]> t !! k' = t !! k'.
Proof.
  intros Hne. destruct (in_int4 k) eqn:Hk.
  - unfold lookup, table_lookup. rewrite view_insert by done.
    by apply lookup_insert_ne.
  - by rewrite insert_out_of_range.
Qed.

Lemma table_lookup_insert_Some (t : table) k k' r r' :
  <[k := r]> t !! k' = Some r' → k = k' ∧ r = r' ∨ k ≠ k' ∧ t !! k' = Some r'.
Proof.
  destruct (decide (k = k')) as [<-|Hne].
  - intros Hr. left. split; [done|].
    pose proof (lookup_in_int4 _ _ _ Hr) as Hk.
    rewrite table_lookup_insert_eq in Hr by done. congruence.
  - rewrite table_lookup_insert_ne by done. eauto.
Qed.

Lemma table_lookup_delete_eq (t : table) k : delete k t !! k = None.
Proof. unfold lookup, table_lookup. rewrite view_delete. apply lookup_delete_eq. Qed.

Lemma table_lookup_delete_ne (t : table) k k' :
  k ≠ k' → delete k t !! k' = t !! k'.
Proof.
  intros Hne. unfold lookup, table_lookup. rewrite view_delete.
  by apply lookup_delete_ne.
Qed.

Lemma table_lookup_delete_Some (t : table) k k' r :
  delete k t !! k' = Some r → k ≠ k' ∧ t !! k' = Some r.
Proof.
  unfold lookup, table_lookup. rewrite view_delete.
  by intros ?%lookup_delete_Some.
Qed.

Lemma table_insert_id (t : table) k r : t !! k = Some r → <[k := r]> t = t.
Proof.
  intros Hr. pose proof (lookup_in_int4 _ _ _ Hr) as Hk.
  apply lookup_rows in Hr. unfold insert, table_insert. rewrite Hk.
  rewrite insert_id by done. by destruct t.
Qed.

Lemma table_insert_insert_eq (t : table) k r r' :
  <[k := r]> (<[k := r']> t) = <[k := r]> t.
Proof.
  unfold insert, table_insert. destruct (in_int4 k); [|done]. simpl.
  by rewrite insert_insert_eq.
Qed.

Lemma table_insert_delete_eq (t : table) k r :
  <[k := r]> (delete k t) = <[k := r]> t.
Proof.
  unfold insert, delete, table_insert, table_delete.
  destruct (in_int4 k); [|done]. simpl. by rewrite insert_delete_eq.
Qed.

Lemma table_dom_insert_lookup (t : table) k r :
  is_Some (t !! k) → dom (<[k := r]> t) = dom t.
Proof.
  intros [r' Hr]. pose proof (lookup_in_int4 _ _ _ Hr) as Hk.
  unfold dom, table_dom. rewrite view_insert by done.
  apply dom_insert_lookup_L. by exists r'.
Qed.

Lemma table_dom_delete (t : table) k : dom (delete k t) = dom t ∖ {[k]}.
Proof. unfold dom at 1 2, table_dom. rewrite view_delete. apply dom_delete_L. Qed.

Lemma table_size_insert_None (t : table) k r :
  in_int4 k = true → t !! k = None → size (<[k := r]> t) = S (size t).
Proof.
  intros Hk Hr. unfold size, table_size. rewrite view_insert by done.
  by apply map_size_insert_None.
Qed.

Lemma elem_of_table_to_list (t : table) k r :
  (k, r) ∈ table_to_list t ↔ t !! k = Some r.
Proof. apply elem_of_map_to_list. Qed.

Lemma length_table_to_list (t : table) : length (table_to_list t) = size t.
Proof. apply length_map_to_list. Qed.

Lemma table_lookup_singleton_Some k k' (r r' : row) :
  ({[k := r]} : table) !! k' = Some r' → k = k' ∧ r = r'.
Proof.
  unfold singletonM, table_singleton.
  intros [?|[_ Hr]]%table_lookup_insert_Some; [done|].
  unfold lookup, table_lookup, view in Hr. simpl in Hr.
  by rewrite map_filter_empty in Hr.
Qed.

(** ** Attributes and dicts *)

Lemma getattr_setattr db_item a f :
  ItemDB.getattr (ItemDB.setattr db_item a) f =
  if decide (key a = f) then a else ItemDB.getattr db_item f.
Proof. destruct a, f; reflexivity. Qed.

(** The loop [for key, value in d.items(): setattr(db_item, key, value)]:
    an attribute ends with the dict's entry for it, and is left alone when
    the dict has none. *)
Lemma getattr_foldl_setattr d : ∀ db_item f,
  ItemDB.getattr (foldl ItemDB.setattr db_item d) f =
  default (ItemDB.getattr db_item f) (dict_attr f d).
Proof.
  unfold dict_attr.
  induction d as [|a d IH] using rev_ind; intros db_item f; [done|].
  rewrite foldl_app, filter_app. simpl. rewrite getattr_setattr.
  rewrite filter_cons, filter_nil. case_decide.
  - by rewrite last_snoc.
  - rewrite app_nil_r. apply IH.
Qed.

Lemma dict_attr_exclude_unset (S : list field) f (d : list attr) :
  dict_attr f (filter (λ a, key a ∈ S) d) =
  if decide (f ∈ S) then dict_attr f d else None.
Proof.
  unfold dict_attr.
  assert (filter (λ a, key a = f) (filter (λ a, key a ∈ S) d) =
          if decide (f ∈ S) then filter (λ a, key a = f) d else []) as ->;
    [|by case_decide].
  induction d as [|a d IH]; [by case_decide|].
  rewrite (filter_cons (λ a, key a ∈ S)), (filter_cons (λ a, key a = f) a d).
  destruct (decide (key a ∈ S)) as [Hin|Hin].
  - rewrite filter_cons, IH.
    destruct (decide (key a = f)) as [<-|Hne]; [|done].
    by destruct (decide (key a ∈ S)).
  - rewrite IH. destruct (decide (key a = f)) as [<-|Hne]; [|done].
    by destruct (decide (key a ∈ S)).
Qed.

Lemma load_columns db_item k :
  ItemDB.id db_item = Some k → load k (columns db_item) = db_item.
Proof. destruct db_item; simpl; intros ->; reflexivity. Qed.

Lemma lookup_item_Some item_id db db_item :
  lookup_item item_id db = Some db_item →
  ItemDB.id db_item = Some item_id ∧ items db !! item_id = Some (columns db_item).
Proof.
  unfold lookup_item. destruct (items db !! item_id) as [r|]; [|done].
  intros [= <-]. by destruct r.
Qed.

Lemma lookup_item_None item_id db :
  lookup_item item_id db = None ↔ items db !! item_id = None.
Proof. unfold lookup_item. by destruct (items db !! item_id). Qed.

(** ** Validation *)

Lemma elem_of_set_field {A} f g (p : parsed A) :
  f ∈ set_field g p ↔ f = g ∧ is_set p.
Proof. destruct p; simpl; rewrite ?elem_of_nil, ?list_elem_of_singleton; tauto. Qed.

Lemma parse_Unset {A} (validate : json → option A) f members :
  parse validate f members = Unset ↔ dict_get (field_name f) members = None.
Proof.
  unfold parse. destruct (dict_get _ members) as [v|]; [|done].
  by destruct (validate v).
Qed.

Lemma parse_Bad {A} (validate : json → option A) f members v :
  dict_get (field_name f) members = Some v → ¬ is_Some (validate v) →
  parse validate f members = Bad.
Proof.
  unfold parse. intros -> Hv. destruct (validate v); [|done].
  by destruct Hv.
Qed.

Lemma check_optional_nil {A} (validate : json → option A) f members :
  check_optional f (parse validate f members) = [] →
  (is_set (parse validate f members) ↔ is_Some (dict_get (field_name f) members)).
Proof.
  unfold parse. destruct (dict_get _ members) as [v|]; simpl.
  - destruct (validate v); simpl; [intros _; split; eauto | done].
  - intros _. split; [done | by intros [??]].
Qed.

Lemma check_required_nil {A} (validate : json → option A) f members :
  check_required f (parse validate f members) = [] →
  is_set (parse validate f members) ∧ is_Some (dict_get (field_name f) members).
Proof.
  unfold parse. destruct (dict_get _ members) as [v|]; simpl; [|done].
  destruct (validate v); simpl; [eauto | done].
Qed.

Section validation_facts.
Context {scalars : Scalars}.

Lemma Item_fields_set members item f :
  Item.model_validate (JObj members) = inr item →
  f ∈ Item.model_fields_set item ↔ is_Some (dict_get (field_name f) members).
Proof.
  unfold Item.model_validate.
  set (p_id := parse _ f_id _). set (p_name := parse _ f_name _).
  set (p_description := parse _ f_description _). set (p_price := parse _ f_price _).
  set (p_available := parse _ f_available _).
  destruct (check_optional f_id p_id ++ _) as [|e errs] eqn:Herrs; [|done].
  apply app_eq_nil in Herrs as [H1 Herrs]. apply app_eq_nil in Herrs as [H2 Herrs].
  apply app_eq_nil in Herrs as [H3 Herrs]. apply app_eq_nil in Herrs as [H4 H5].
  apply check_optional_nil in H1, H3, H5.
  apply check_required_nil in H2 as [H2 H2'], H4 as [H4 H4'].
  destruct p_name as [|n|] eqn:En; [done| |done].
  destruct p_price as [|p|] eqn:Ep; [done| |done].
  intros [= <-]. simpl.
  repeat (rewrite elem_of_app || rewrite elem_of_cons || rewrite elem_of_set_field).
  destruct f; simpl in *; intuition (try discriminate; eauto).
Qed.

Lemma ItemUpdate_fields_set members item f :
  ItemUpdate.model_validate (JObj members) = inr item →
  f ∈ ItemUpdate.model_fields_set item ↔
  f ≠ f_id ∧ is_Some (dict_get (field_name f) members).
Proof.
  unfold ItemUpdate.model_validate.
  set (p_name := parse _ f_name _).
  set (p_description := parse _ f_description _). set (p_price := parse _ f_price _).
  set (p_available := parse _ f_available _).
  destruct (check_optional f_name p_name ++ _) as [|e errs] eqn:Herrs; [|done].
  apply app_eq_nil in Herrs as [H2 Herrs].
  apply app_eq_nil in Herrs as [H3 Herrs]. apply app_eq_nil in Herrs as [H4 H5].
  apply check_optional_nil in H2, H3, H4, H5.
  intros [= <-]. simpl.
  repeat (rewrite elem_of_app || rewrite elem_of_cons || rewrite elem_of_set_field).
  destruct f; simpl in *; intuition (try discriminate; eauto).
Qed.

Lemma Item_validate_object body item :
  Item.model_validate body = inr item → ∃ members, body = JObj members.
Proof. destruct body; try done. eauto. Qed.
(** Whatever the scalar validators are, a body made of a string [name] and a
    float [price] validates, with the defaults for the other fields. *)
Lemma name_price_validates n p :
  Item.model_validate (JObj [("name"%string, JStr n); ("price"%string, JFloat p)]) =
  inr (Item.mk None n None p true [f_name; f_price]).
Proof.
  unfold Item.model_validate, parse. simpl.
  by rewrite validate_str_exact, validate_float_exact.
Qed.
End validation_facts.

Section claims.
Context {scalars : Scalars} {postgres : Postgres}.

Lemma Item_dump_entry item f :
  dict_attr f (Item.model_dump item) = Some (ItemDB.getattr
    {| ItemDB.id := Item.id item; ItemDB.name := Some (Item.name item);
       ItemDB.description := Item.description item;
       ItemDB.price := Some (Item.price item);
       ItemDB.available := Some (Item.available item) |} f).
Proof. by destruct f. Qed.

Lemma lookup_item_int4 item_id db db_item :
  lookup_item item_id db = Some db_item → in_int4 item_id = true.
Proof.
  intros [_ Hr]%lookup_item_Some. by apply lookup_in_int4 in Hr.
Qed.

Lemma lookup_item_insert k new (t : table) seq :
  in_int4 k = true → ItemDB.id new = Some k →
  lookup_item k {| items := <[k := columns new]> t; items_id_seq := seq |} = Some new.
Proof.
  intros Hk Hid. unfold lookup_item. simpl.
  rewrite table_lookup_insert_eq by done. simpl. by rewrite load_columns.
Qed.

(** The outcome of the UPDATE and the refresh for an object whose row is
    there: a refusal that leaves the database as it was, or the row
    written. *)
Lemma commit_dirty_refresh item_id old new db e db' :
  lookup_item item_id db = Some old →
  bind (commit_dirty item_id old new) refresh db = (e, db') →
  (db' = db ∧
   (refuses_update old new = true ∧ e = inl DataError ∨
    refuses_update old new = false ∧ ItemDB.id new = None ∧ e = inl FlushError ∨
    refuses_update old new = false ∧
    ∃ k, ItemDB.id new = Some k ∧ k ≠ item_id ∧ is_Some (items db !! k) ∧
         e = inl IntegrityError)) ∨
  (refuses_update old new = false ∧
   ∃ k, ItemDB.id new = Some k ∧ in_int4 k = true ∧ e = inr new ∧
        lookup_item k db' = Some new ∧
        db' = {| items := <[k := columns new]> (delete item_id (items db));
                 items_id_seq := items_id_seq db |}).
Proof.
  intros Hold. pose proof (lookup_item_int4 _ _ _ Hold) as Hint.
  apply lookup_item_Some in Hold as [Hoid _].
  unfold bind, commit_dirty, refresh.
  destruct (refuses_update old new) eqn:Href.
  { intros [= <- <-]. left. split; [done|]. by left. }
  destruct (ItemDB.id new) as [k|] eqn:Hid.
  2: { intros [= <- <-]. left. split; [done|]. right; left. done. }
  assert (in_int4 k = true) as Hk.
  { destruct (decide (k = item_id)) as [->|Hne]; [done|].
    unfold refuses_update in Href. rewrite Hid, Hoid in Href.
    rewrite bool_decide_true in Href by congruence.
    cbn [from_option andb] in Href. by destruct (in_int4 k). }
  destruct (decide (k = item_id)) as [->|Hne].
  - rewrite lookup_item_insert by done. intros [= <- <-]. right.
    split; [done|]. exists item_id. rewrite table_insert_delete_eq.
    split_and!; try done. by apply lookup_item_insert.
  - destruct (items db !! k) eqn:Hr.
    + intros [= <- <-]. left. split; [done|]. right; right.
      split; [done|]. exists k. split_and!; [done..|by eauto|done].
    + rewrite lookup_item_insert by done. intros [= <- <-]. right.
      split; [done|]. exists k. split_and!; try done. by apply lookup_item_insert.
Qed.

Lemma scalar_one_or_none_found item_id db db_item :
  lookup_item item_id db = Some db_item →
  scalar_one_or_none item_id db = (inr (Some db_item), db).
Proof.
  intros Hl. unfold scalar_one_or_none.
  by rewrite (lookup_item_int4 _ _ _ Hl), Hl.
Qed.

Lemma scalar_one_or_none_missing item_id db :
  in_int4 item_id = true → items db !! item_id = None →
  scalar_one_or_none item_id db = (inr None, db).
Proof.
  intros Hk Hr%lookup_item_None. unfold scalar_one_or_none. by rewrite Hk, Hr.
Qed.

Lemma scalar_one_or_none_refused item_id db :
  in_int4 item_id = false →
  scalar_one_or_none item_id db = (inl DataError, db).
Proof. intros Hk. unfold scalar_one_or_none. by rewrite Hk. Qed.

Lemma update_item_found item_id updated_item db old :
  lookup_item item_id db = Some old →
  update_item item_id updated_item db =
  bind (commit_dirty item_id old
          (foldl ItemDB.setattr old (Item.model_dump_exclude_unset updated_item)))
       refresh db.
Proof.
  intros Hold. unfold update_item at 1, bind at 1.
  by rewrite (scalar_one_or_none_found _ _ _ Hold).
Qed.

(** C1.  PUT on a stored item, with a body that validates, overwrites only
    the fields the body holds.  The row is built from [new], and an
    attribute of [new] whose key the body leaves out is the one the row had
    before; an attribute whose key the body holds is the body's value for
    it.  The database either is the same as before (the write was refused)
    or differs only in that row; a 200 response shows [new]. *)
Theorem update_item_overwrites_only_supplied item_id members updated_item db old resp db' :
  lookup_item item_id db = Some old →
  Item.model_validate (JObj members) = inr updated_item →
  app (PUT_item item_id (JObj members)) db = (resp, db') →
  ∃ new,
    (∀ f, dict_get (field_name f) members = None →
          ItemDB.getattr new f = ItemDB.getattr old f) ∧
    (∀ f, is_Some (dict_get (field_name f) members) →
          dict_attr f (Item.model_dump updated_item) = Some (ItemDB.getattr new f)) ∧
    (db' = db ∧ status resp = 500 ∨
     ∃ k, ItemDB.id new = Some k ∧
          db' = {| items := <[k := columns new]> (delete item_id (items db));
                   items_id_seq := items_id_seq db |}) ∧
    (status resp = 200 →
     ∃ k, ItemDB.id new = Some k ∧ lookup_item k db' = Some new ∧
          JSON <$> response_Item new = Some (content_of resp)).
Proof.
  intros Hold Hvalid. unfold app. rewrite Hvalid.
  rewrite (update_item_found _ _ _ old) by done.
  set (new := foldl ItemDB.setattr old _).
  assert (∀ f, ItemDB.getattr new f =
    if decide (f ∈ Item.model_fields_set updated_item)
    then ItemDB.getattr
      {| ItemDB.id := Item.id updated_item;
         ItemDB.name := Some (Item.name updated_item);
         ItemDB.description := Item.description updated_item;
         ItemDB.price := Some (Item.price updated_item);
         ItemDB.available := Some (Item.available updated_item) |} f
    else ItemDB.getattr old f) as Hnew.
  { intros f. unfold new, Item.model_dump_exclude_unset.
    rewrite getattr_foldl_setattr, dict_attr_exclude_unset, Item_dump_entry.
    by case_decide. }
  intros Happ. exists new. split_and!.
  - intros f Hf. rewrite Hnew, decide_False; [done|].
    rewrite (Item_fields_set members) by done. rewrite Hf. by intros [??].
  - intros f Hf. rewrite Hnew, decide_True, Item_dump_entry; [done|].
    by rewrite (Item_fields_set members).
  - destruct (bind _ refresh db) as [e db1] eqn:Hc.
    apply commit_dirty_refresh in Hc
      as [[-> Hx]|(_ & k & Hk & _ & -> & Hl & ->)]; [| |done].
    + left. simpl in Happ.
      destruct Hx as [[_ ->]|[(_ & _ & ->)|(_ & k & _ & _ & _ & ->)]];
        by injection Happ as <- <-.
    + right. exists k. split; [done|].
      unfold respond in Happ. by destruct (response_Item new); injection Happ as <- <-.
  - destruct (bind _ refresh db) as [e db1] eqn:Hc.
    apply commit_dirty_refresh in Hc
      as [[-> Hx]|(_ & k & Hk & _ & -> & Hl & ->)]; [| |done].
    + simpl in Happ.
      destruct Hx as [[_ ->]|[(_ & _ & ->)|(_ & k & _ & _ & _ & ->)]];
        by injection Happ as <- <-.
    + unfold respond in Happ. exists k.
      destruct (response_Item new); injection Happ as <- <-; [done|].
      simpl. done.
Qed.

Lemma respond_snd {A} (encode : A → option json) outcome :
  (respond encode outcome).2 = outcome.2.
Proof.
  destruct outcome as [[e|a] db]; simpl; [by destruct e|by destruct (encode a)].
Qed.

Lemma ItemUpdate_dump_entry item f :
  dict_attr f (ItemUpdate.model_dump item) =
  if decide (f = f_id) then None
  else Some (ItemDB.getattr
    {| ItemDB.id := None; ItemDB.name := ItemUpdate.name item;
       ItemDB.description := ItemUpdate.description item;
       ItemDB.price := ItemUpdate.price item;
       ItemDB.available := ItemUpdate.available item |} f).
Proof. by destruct f. Qed.

Lemma patch_item_found item_id item_data db old :
  lookup_item item_id db = Some old →
  patch_item item_id item_data db =
  bind (commit_dirty item_id old
          (foldl ItemDB.setattr old (ItemUpdate.model_dump_exclude_unset item_data)))
       refresh db.
Proof.
  intros Hold. unfold patch_item at 1, bind at 1.
  by rewrite (scalar_one_or_none_found _ _ _ Hold).
Qed.

(** C5.  PATCH on a stored item, with a body that validates, builds [new]
    from the row: an attribute whose key the body leaves out is the one the
    row had before, any other field of the model has the body's value, and
    the id stays [item_id].  A body that holds neither [name] nor
    [description] is never refused.  When the server refuses a text that
    the body changes, nothing is written and the response is 500; otherwise
    the row built from [new] is written under [item_id] and the response is
    what the framework makes of [new]. *)
Theorem patch_item_preserves_unsupplied item_id members item_data db old resp db' :
  lookup_item item_id db = Some old →
  ItemUpdate.model_validate (JObj members) = inr item_data →
  app (PATCH_item item_id (JObj members)) db = (resp, db') →
  ∃ new,
    (∀ f, dict_get (field_name f) members = None →
          ItemDB.getattr new f = ItemDB.getattr old f) ∧
    (∀ f, f ≠ f_id → is_Some (dict_get (field_name f) members) →
          dict_attr f (ItemUpdate.model_dump item_data) = Some (ItemDB.getattr new f)) ∧
    ItemDB.id new = Some item_id ∧
    (dict_get "name" members = None → dict_get "description" members = None →
     refuses_update old new = false) ∧
    if refuses_update old new
    then db' = db ∧ resp = internal_server_error
    else db' = {| items := <[item_id := columns new]> (items db);
                  items_id_seq := items_id_seq db |} ∧
         lookup_item item_id db' = Some new ∧
         (resp, db') = respond response_Item (inr new, db').
Proof.
  intros Hold Hvalid. unfold app. rewrite Hvalid.
  rewrite (patch_item_found _ _ _ old) by done.
  set (new := foldl ItemDB.setattr old _).
  assert (∀ f, ItemDB.getattr new f =
    if decide (f ∈ ItemUpdate.model_fields_set item_data)
    then ItemDB.getattr
      {| ItemDB.id := None; ItemDB.name := ItemUpdate.name item_data;
         ItemDB.description := ItemUpdate.description item_data;
         ItemDB.price := ItemUpdate.price item_data;
         ItemDB.available := ItemUpdate.available item_data |} f
    else ItemDB.getattr old f) as Hnew.
  { intros f. unfold new, ItemUpdate.model_dump_exclude_unset.
    rewrite getattr_foldl_setattr, dict_attr_exclude_unset, ItemUpdate_dump_entry.
    destruct (decide (f ∈ _)) as [Hf|Hf]; [|done].
    apply (ItemUpdate_fields_set members) in Hf as [Hf _]; [|done].
    by rewrite decide_False. }
  assert (∀ f, dict_get (field_name f) members = None →
               ItemDB.getattr new f = ItemDB.getattr old f) as Hframe.
  { intros f Hf. rewrite Hnew, decide_False; [done|].
    rewrite (ItemUpdate_fields_set members) by done. rewrite Hf. by intros [_ [??]]. }
  assert (ItemDB.id new = Some item_id) as Hid.
  { pose proof (Hnew f_id) as Hf. rewrite decide_False in Hf.
    - apply lookup_item_Some in Hold as [Hold _]. simpl in Hf. congruence.
    - rewrite (ItemUpdate_fields_set members) by done. by intros [? _]. }
  intros Happ. exists new. split_and!; try done.
  - intros f Hne Hf. rewrite Hnew, decide_True, ItemUpdate_dump_entry, decide_False; try done.
    by rewrite (ItemUpdate_fields_set members).
  - intros Hn Hd. apply lookup_item_Some in Hold as [Hoid _].
    pose proof (Hframe f_name Hn) as Hfn. pose proof (Hframe f_description Hd) as Hfd.
    simpl in Hfn, Hfd. injection Hfn as Hfn. injection Hfd as Hfd.
    unfold refuses_update. rewrite Hid, Hoid, Hfn, Hfd.
    by rewrite !bool_decide_false by (by intros []).
  - destruct (bind _ refresh db) as [e db1] eqn:Hc.
    apply commit_dirty_refresh in Hc
      as [[-> Hx]|(Href & k & Hk & _ & -> & Hl & ->)]; [| |done].
    + destruct Hx as [[Href ->]|[(_ & ? & _)|(_ & k & ? & ? & _)]]; [|congruence..].
      rewrite Href. by injection Happ as <- <-.
    + rewrite Href. assert (k = item_id) as -> by congruence.
      rewrite table_insert_delete_eq in *.
      pose proof (f_equal snd Happ) as Hdb. rewrite respond_snd in Hdb.
      simpl in Hdb. by subst db'.
Qed.

Lemma commit_add_refresh db_item db e db' :
  bind (commit_add db_item) refresh db = (e, db') →
  (∃ exc, e = inl exc ∧ items db' = items db ∧
     (exc = DataError ∧ db' = db ∨
      exc = IntegrityError ∧
      ((∃ k, ItemDB.id db_item = Some k ∧ is_Some (items db !! k) ∧ db' = db) ∨
       (ItemDB.id db_item = None ∧ is_Some (items db !! (items_id_seq db + 1)) ∧
        items_id_seq db' = items_id_seq db + 1)))) ∨
  (∃ k, e = inr (load k (inserted_columns db_item)) ∧
        items db !! k = None ∧
        lookup_item k db' = Some (load k (inserted_columns db_item)) ∧
        items db' = <[k := inserted_columns db_item]> (items db) ∧
        (ItemDB.id db_item = Some k ∧ items_id_seq db' = items_id_seq db ∨
         ItemDB.id db_item = None ∧ k = items_id_seq db + 1 ∧
         items_id_seq db' = k) ∧
        in_int4 k = true ∧ refuses_insert db_item = false).
Proof.
  unfold bind, commit_add, refresh.
  destruct (refuses_insert db_item) eqn:Href.
  { intros [= <- <-]. left. exists DataError. split_and!; [done..|]. by left. }
  destruct (ItemDB.id db_item) as [k|] eqn:Hid.
  - destruct (in_int4 k) eqn:Hint; cbn [negb].
    2: { intros [= <- <-]. left. exists DataError. split_and!; [done..|]. by left. }
    destruct (items db !! k) eqn:Hk.
    + intros [= <- <-]. left. exists IntegrityError. split_and!; [done..|].
      right. split; [done|]. left. exists k. split_and!; [done|by eauto|done].
    + unfold lookup_item. cbn [items]. rewrite table_lookup_insert_eq by done.
      cbn [fmap option_fmap option_map].
      intros [= <- <-]. right. exists k. cbn [items items_id_seq].
      rewrite table_lookup_insert_eq by done.
      split_and!; try done. by left.
  - destruct (in_int4 (items_id_seq db + 1)) eqn:Hint; cbn [negb].
    2: { intros [= <- <-]. left. exists DataError. split_and!; [done..|]. by left. }
    destruct (items db !! (items_id_seq db + 1)) eqn:Hk.
    + intros [= <- <-]. left. exists IntegrityError. split_and!; [done..|].
      right. split; [done|]. right. split_and!; [done|by eauto|done].
    + unfold lookup_item. cbn [items]. rewrite table_lookup_insert_eq by done.
      cbn [fmap option_fmap option_map].
      intros [= <- <-]. right. exists (items_id_seq db + 1). cbn [items items_id_seq].
      rewrite table_lookup_insert_eq by done.
      split_and!; try done. by right.
Qed.

(** C3 (amended).  A body that validates and supplies only [name] and
    [price], with a name the server stores and a finite price, on a
    database where the id the sequence gives next fits the column and is
    not taken: the response is 200 and shows that id, the name and the
    price of the body, no description and [available] true, and the row is
    stored under that id. *)
Theorem create_item_name_price body item db :
  Item.model_validate body = inr item →
  Item.model_fields_set item = [f_name; f_price] →
  stores_name (Item.name item) = true →
  is_finite (Item.price item) = true →
  in_int4 (items_id_seq db + 1) = true →
  items db !! (items_id_seq db + 1) = None →
  app (POST_items body) db =
  ({| status := 200;
      content_of := JSON (JObj [
        ("id"%string, JInt (items_id_seq db + 1));
        ("name"%string, JStr (Item.name item));
        ("description"%string, JNull);
        ("price"%string, JFloat (Item.price item));
        ("available"%string, JBool true)]) |},
   {| items := <[items_id_seq db + 1 :=
                   {| c_name := Some (Item.name item); c_description := None;
                      c_price := Some (Item.price item);
                      c_available := Some true |}]> (items db);
      items_id_seq := items_id_seq db + 1 |}).
Proof.
  intros Hvalid Hset Hname Hprice Hint Hfree. unfold app. rewrite Hvalid.
  unfold create_item, Item.model_dump_exclude_unset. rewrite Hset.
  unfold bind, commit_add, refresh, lookup_item, refuses_insert.
  simpl. rewrite Hname, Hint, Hfree. simpl.
  rewrite table_lookup_insert_eq by done. simpl.
  unfold Item.to_json, Item.float_to_json. simpl. by rewrite Hprice.
Qed.

(** C4.  When POST answers 200, its body starts with the id of the new item,
    and GET with that id on the database POST leaves answers with the same
    response, hence the same five fields. *)
Theorem create_then_get body db resp db' :
  app (POST_items body) db = (resp, db') →
  status resp = 200 →
  ∃ k rest,
    content_of resp = JSON (JObj (("id"%string, JInt k) :: rest)) ∧
    app (GET_item k) db' = (resp, db').
Proof.
  unfold app. destruct (Item.model_validate body) as [errs|item]; [by intros [= <- <-]|].
  unfold create_item. destruct (bind _ refresh db) as [e db1] eqn:Hc.
  apply commit_add_refresh in Hc as [(exc & -> & _ & Hexc)|(k & -> & Hfree & Hl & _)].
  { by destruct Hexc as [[-> _]|[-> _]]; intros [= <- <-]. }
  intros Hresp Hstatus.
  pose proof (f_equal snd Hresp) as Hdb. rewrite respond_snd in Hdb.
  simpl in Hdb. subst db1.
  exists k. unfold get_item, bind.
  rewrite (scalar_one_or_none_found _ _ _ Hl). unfold ret.
  rewrite Hresp.
  unfold respond, response_Item in Hresp.
  destruct (from_attributes _) as [it|] eqn:Hit; simpl in Hresp;
    injection Hresp as <-; [|done].
  unfold from_attributes in Hit. simpl in Hit.
  repeat case_match; try done. injection Hit as <-. simpl. eauto.
Qed.
(** ** Requests for an id that has no row, and DELETE for one that has *)

Lemma get_item_missing item_id db :
  in_int4 item_id = true → items db !! item_id = None →
  app (GET_item item_id) db = (not_found, db).
Proof.
  intros Hk Hnone. unfold app, get_item, bind.
  by rewrite scalar_one_or_none_missing.
Qed.

Lemma delete_item_missing item_id db :
  in_int4 item_id = true → items db !! item_id = None →
  app (DELETE_item item_id) db = (not_found, db).
Proof.
  intros Hk Hnone. unfold app, delete_item, bind.
  by rewrite scalar_one_or_none_missing.
Qed.

Lemma update_item_missing item_id body db :
  in_int4 item_id = true → items db !! item_id = None →
  validation_errors (PUT_item item_id body) = None →
  app (PUT_item item_id body) db = (not_found, db).
Proof.
  intros Hk Hnone. unfold app, validation_errors.
  destruct (Item.model_validate body); [done|intros _].
  unfold update_item, bind. by rewrite scalar_one_or_none_missing.
Qed.

Lemma patch_item_missing item_id body db :
  in_int4 item_id = true → items db !! item_id = None →
  validation_errors (PATCH_item item_id body) = None →
  app (PATCH_item item_id body) db = (not_found, db).
Proof.
  intros Hk Hnone. unfold app, validation_errors.
  destruct (ItemUpdate.model_validate body); [done|intros _].
  unfold patch_item, bind. by rewrite scalar_one_or_none_missing.
Qed.

(** An id the column cannot hold: the driver refuses the parameter of the
    SELECT, the handler does not catch that, and the answer is 500. *)
Lemma get_item_refused item_id db :
  in_int4 item_id = false →
  app (GET_item item_id) db = (internal_server_error, db).
Proof.
  intros Hk. unfold app, get_item, bind. by rewrite scalar_one_or_none_refused.
Qed.

Lemma delete_item_refused item_id db :
  in_int4 item_id = false →
  app (DELETE_item item_id) db = (internal_server_error, db).
Proof.
  intros Hk. unfold app, delete_item, bind. by rewrite scalar_one_or_none_refused.
Qed.

Lemma update_item_refused item_id body db :
  in_int4 item_id = false →
  validation_errors (PUT_item item_id body) = None →
  app (PUT_item item_id body) db = (internal_server_error, db).
Proof.
  intros Hk. unfold app, validation_errors.
  destruct (Item.model_validate body); [done|intros _].
  unfold update_item, bind. by rewrite scalar_one_or_none_refused.
Qed.

Lemma patch_item_refused item_id body db :
  in_int4 item_id = false →
  validation_errors (PATCH_item item_id body) = None →
  app (PATCH_item item_id body) db = (internal_server_error, db).
Proof.
  intros Hk. unfold app, validation_errors.
  destruct (ItemUpdate.model_validate body); [done|intros _].
  unfold patch_item, bind. by rewrite scalar_one_or_none_refused.
Qed.

Lemma delete_item_found item_id db :
  is_Some (items db !! item_id) →
  app (DELETE_item item_id) db =
  ({| status := 200;
      content_of := JSON (JObj [
        ("detail"%string, JStr ("Item " +:+ pretty item_id +:+ " deleted"))]) |},
   {| items := delete item_id (items db); items_id_seq := items_id_seq db |}).
Proof.
  intros [r Hr].
  unfold app, delete_item, bind, scalar_one_or_none, lookup_item.
  by rewrite (lookup_in_int4 _ _ _ Hr), Hr.
Qed.

(** C7 (amended).  For an id that the integer column can hold and that has
    no row, GET and DELETE answer 404 with the detail [Item not found], and
    so do PUT and PATCH whenever their body passes validation.  The
    database is left as it was. *)
Theorem missing_item_not_found item_id db :
  in_int4 item_id = true →
  items db !! item_id = None →
  app (GET_item item_id) db = (not_found, db) ∧
  app (DELETE_item item_id) db = (not_found, db) ∧
  (∀ body, validation_errors (PUT_item item_id body) = None →
           app (PUT_item item_id body) db = (not_found, db)) ∧
  (∀ body, validation_errors (PATCH_item item_id body) = None →
           app (PATCH_item item_id body) db = (not_found, db)).
Proof.
  intros Hk Hnone. split_and!.
  - by apply get_item_missing.
  - by apply delete_item_missing.
  - intros body. by apply update_item_missing.
  - intros body. by apply patch_item_missing.
Qed.

(** C8.  DELETE on an id that has a row answers 200 with the detail
    [Item <id> deleted], the id written in decimal; afterwards the id has
    no row, the other rows are as before, and GET on the id answers 404. *)
Theorem delete_item_deletes item_id db :
  is_Some (items db !! item_id) →
  ∃ db',
    app (DELETE_item item_id) db =
    ({| status := 200;
        content_of := JSON (JObj [
          ("detail"%string, JStr ("Item " +:+ pretty item_id +:+ " deleted"))]) |},
     db') ∧
    items db' !! item_id = None ∧
    (∀ k, k ≠ item_id → items db' !! k = items db !! k) ∧
    app (GET_item item_id) db' = (not_found, db').
Proof.
  intros Hsome. eexists. split; [by apply delete_item_found|].
  assert (delete item_id (items db) !! item_id = None) as Hd
    by apply table_lookup_delete_eq.
  assert (in_int4 item_id = true) as Hk.
  { destruct Hsome as [r Hr]. by apply lookup_in_int4 in Hr. }
  split_and!; [done| |by apply get_item_missing].
  intros k Hne. simpl. by rewrite table_lookup_delete_ne.
Qed.

Lemma Item_missing_required members f :
  f = f_name ∨ f = f_price →
  dict_get (field_name f) members = None →
  ∃ errs, Item.model_validate (JObj members) = inl errs ∧
          (in_field f, missing) ∈ errs.
Proof.
  intros Hf Hnone. unfold Item.model_validate.
  set (p_id := parse _ f_id _). set (p_name := parse _ f_name _).
  set (p_description := parse _ f_description _). set (p_price := parse _ f_price _).
  set (p_available := parse _ f_available _).
  set (errs := check_optional f_id p_id ++ _).
  assert ((in_field f, missing) ∈ errs) as Hin.
  { unfold errs. rewrite !elem_of_app.
    destruct Hf as [-> | ->].
    - right; left. unfold p_name.
      rewrite (proj2 (parse_Unset _ _ _) Hnone). simpl. set_solver.
    - right; right; right; left. unfold p_price.
      rewrite (proj2 (parse_Unset _ _ _) Hnone). simpl. set_solver. }
  exists errs. split; [|done].
  destruct errs; [by apply elem_of_nil in Hin|done].
Qed.

Lemma Item_wrong_type members f v :
  dict_get (field_name f) members = Some v → ¬ Item.accepts f v →
  ∃ errs, Item.model_validate (JObj members) = inl errs ∧
          (in_field f, invalid) ∈ errs.
Proof.
  intros Hget Hv. unfold Item.model_validate.
  set (p_id := parse _ f_id _). set (p_name := parse _ f_name _).
  set (p_description := parse _ f_description _). set (p_price := parse _ f_price _).
  set (p_available := parse _ f_available _).
  set (errs := check_optional f_id p_id ++ _).
  assert ((in_field f, invalid) ∈ errs) as Hin.
  { unfold errs. rewrite !elem_of_app.
    destruct f; simpl in Hv.
    - left. unfold p_id. rewrite (parse_Bad _ _ _ v) by done. simpl. set_solver.
    - right; left. unfold p_name. rewrite (parse_Bad _ _ _ v) by done. simpl. set_solver.
    - right; right; left. unfold p_description.
      rewrite (parse_Bad _ _ _ v) by done. simpl. set_solver.
    - right; right; right; left. unfold p_price.
      rewrite (parse_Bad _ _ _ v) by done. simpl. set_solver.
    - right; right; right; right. unfold p_available.
      rewrite (parse_Bad _ _ _ v) by done. simpl. set_solver. }
  exists errs. split; [|done].
  destruct errs; [by apply elem_of_nil in Hin|done].
Qed.

Lemma ItemUpdate_wrong_type members f v :
  dict_get (field_name f) members = Some v → ¬ ItemUpdate.accepts f v →
  ∃ errs, ItemUpdate.model_validate (JObj members) = inl errs ∧
          (in_field f, invalid) ∈ errs.
Proof.
  intros Hget Hv. unfold ItemUpdate.model_validate.
  set (p_name := parse _ f_name _).
  set (p_description := parse _ f_description _). set (p_price := parse _ f_price _).
  set (p_available := parse _ f_available _).
  set (errs := check_optional f_name p_name ++ _).
  assert ((in_field f, invalid) ∈ errs) as Hin.
  { unfold errs. rewrite !elem_of_app.
    destruct f; simpl in Hv.
    - done.
    - left. unfold p_name. rewrite (parse_Bad _ _ _ v) by done. simpl. set_solver.
    - right; left. unfold p_description.
      rewrite (parse_Bad _ _ _ v) by done. simpl. set_solver.
    - right; right; left. unfold p_price.
      rewrite (parse_Bad _ _ _ v) by done. simpl. set_solver.
    - right; right; right. unfold p_available.
      rewrite (parse_Bad _ _ _ v) by done. simpl. set_solver. }
  exists errs. split; [|done].
  destruct errs; [by apply elem_of_nil in Hin|done].
Qed.

Lemma validation_errors_unprocessable req db errs :
  validation_errors req = Some errs →
  app req db = ({| status := 422; content_of := RequestValidationError errs |}, db).
Proof.
  unfold validation_errors, app, unprocessable.
  destruct req; try done.
  - destruct (Item.model_validate body); [by intros [= ->]|done].
  - destruct (Item.model_validate body); [by intros [= ->]|done].
  - destruct (ItemUpdate.model_validate body); [by intros [= ->]|done].
Qed.

(** C9.  A request whose body has validation errors is answered 422 with
    those errors and the database stays as it was.  A create or PUT body
    without [name] or without [price] has such errors, and so has a body
    that holds, for a field of the model, a value the field does not
    accept. *)
Theorem invalid_body_rejected_before_storage :
  (∀ req db errs, validation_errors req = Some errs →
     app req db =
     ({| status := 422; content_of := RequestValidationError errs |}, db)) ∧
  (∀ item_id members f, f = f_name ∨ f = f_price →
     dict_get (field_name f) members = None →
     is_Some (validation_errors (POST_items (JObj members))) ∧
     is_Some (validation_errors (PUT_item item_id (JObj members)))) ∧
  (∀ item_id members f v,
     dict_get (field_name f) members = Some v → ¬ Item.accepts f v →
     is_Some (validation_errors (POST_items (JObj members))) ∧
     is_Some (validation_errors (PUT_item item_id (JObj members)))) ∧
  (∀ item_id members f v,
     dict_get (field_name f) members = Some v → ¬ ItemUpdate.accepts f v →
     is_Some (validation_errors (PATCH_item item_id (JObj members)))).
Proof.
  split_and!.
  - apply validation_errors_unprocessable.
  - intros item_id members f Hf Hnone.
    destruct (Item_missing_required members f) as (errs & Herrs & _); [done..|].
    unfold validation_errors. rewrite Herrs. eauto.
  - intros item_id members f v Hget Hv.
    destruct (Item_wrong_type members f v) as (errs & Herrs & _); [done..|].
    unfold validation_errors. rewrite Herrs. eauto.
  - intros item_id members f v Hget Hv.
    destruct (ItemUpdate_wrong_type members f v) as (errs & Herrs & _); [done..|].
    unfold validation_errors. rewrite Herrs. eauto.
Qed.

(** C10 (amended).  PUT, PATCH and DELETE on an id that has no row leave
    the database as it was.  The response is the errors of the body with
    422 when the body fails validation; otherwise it is the 404 one when
    the integer column can hold the id, and 500 when it cannot. *)
Theorem missing_item_store_unchanged item_id req db :
  items db !! item_id = None →
  req = DELETE_item item_id ∨
  (∃ body, req = PUT_item item_id body ∨ req = PATCH_item item_id body) →
  (app req db).2 = db ∧
  (app req db).1 =
  match validation_errors req with
  | Some errs => {| status := 422; content_of := RequestValidationError errs |}
  | None => if in_int4 item_id then not_found else internal_server_error
  end.
Proof.
  intros Hnone Hreq.
  destruct (validation_errors req) as [errs|] eqn:Hv.
  { by rewrite (validation_errors_unprocessable _ _ errs). }
  destruct (in_int4 item_id) eqn:Hk.
  - destruct Hreq as [->|[body [->| ->]]].
    + by rewrite delete_item_missing.
    + by rewrite update_item_missing.
    + by rewrite patch_item_missing.
  - destruct Hreq as [->|[body [->| ->]]].
    + by rewrite delete_item_refused.
    + by rewrite update_item_refused.
    + by rewrite patch_item_refused.
Qed.

Lemma response_Item_other X db_item db :
  ItemDB.id db_item ≠ Some X →
  response_id (respond response_Item (inr db_item, db)).1 ≠ Some X.
Proof.
  intros Hid. unfold respond, response_Item, from_attributes.
  destruct (ItemDB.name db_item), (ItemDB.price db_item), (ItemDB.available db_item);
    try done.
  unfold response_id. simpl. destruct (ItemDB.id db_item); [|done].
  simpl. congruence.
Qed.

Lemma respond_error_id {A} (encode : A → option json) x db :
  response_id (respond encode (inl x, db)).1 = None.
Proof. by destruct x. Qed.

Lemma init_id item :
  ItemDB.id (ItemDB.init (Item.model_dump_exclude_unset item)) =
  if decide (f_id ∈ Item.model_fields_set item) then Item.id item else None.
Proof.
  pose proof (getattr_foldl_setattr (Item.model_dump_exclude_unset item)
    ItemDB.new f_id) as Hg.
  unfold Item.model_dump_exclude_unset in Hg.
  rewrite dict_attr_exclude_unset, Item_dump_entry in Hg. fold (Item.model_dump_exclude_unset item) in Hg.
  unfold ItemDB.init. simpl in Hg. case_decide; simpl in Hg; congruence.
Qed.

Lemma updated_id old item :
  ItemDB.id (foldl ItemDB.setattr old (Item.model_dump_exclude_unset item)) =
  if decide (f_id ∈ Item.model_fields_set item) then Item.id item else ItemDB.id old.
Proof.
  pose proof (getattr_foldl_setattr (Item.model_dump_exclude_unset item) old f_id) as Hg.
  unfold Item.model_dump_exclude_unset in Hg.
  rewrite dict_attr_exclude_unset, Item_dump_entry in Hg. fold (Item.model_dump_exclude_unset item) in Hg.
  simpl in Hg. case_decide; simpl in Hg; congruence.
Qed.

Lemma patched_id old item_data :
  ItemDB.id (foldl ItemDB.setattr old (ItemUpdate.model_dump_exclude_unset item_data)) =
  ItemDB.id old.
Proof.
  pose proof (getattr_foldl_setattr
    (ItemUpdate.model_dump_exclude_unset item_data) old f_id) as Hg.
  unfold ItemUpdate.model_dump_exclude_unset in Hg.
  rewrite dict_attr_exclude_unset, ItemUpdate_dump_entry in Hg.
  fold (ItemUpdate.model_dump_exclude_unset item_data) in Hg.
  simpl in Hg. case_decide; simpl in Hg; congruence.
Qed.

Lemma response_Item_shown_id db_item j :
  response_Item db_item = Some j → shown_id j = ItemDB.id db_item.
Proof.
  unfold response_Item, from_attributes.
  destruct (ItemDB.name db_item), (ItemDB.price db_item), (ItemDB.available db_item);
    try done.
  intros [= <-]. unfold shown_id, Item.to_json. simpl.
  by destruct (ItemDB.id db_item).
Qed.

Lemma response_ids_Item X db_item db :
  ItemDB.id db_item ≠ Some X →
  X ∉ response_ids (respond response_Item (inr db_item, db)).1.
Proof.
  intros Hid. unfold respond.
  destruct (response_Item db_item) as [j|] eqn:Hj; [|apply not_elem_of_nil].
  pose proof (response_Item_shown_id _ _ Hj) as Hs.
  unfold response_Item in Hj. destruct (from_attributes db_item); [|done].
  injection Hj as <-. unfold response_ids. cbn [fst content_of Item.to_json].
  rewrite Hs. destruct (ItemDB.id db_item) as [k|]; [|apply not_elem_of_nil].
  simpl. rewrite list_elem_of_singleton. congruence.
Qed.

Lemma response_ids_List X l db :
  (∀ db_item, db_item ∈ l → ItemDB.id db_item ≠ Some X) →
  X ∉ response_ids (respond response_List_Item (inr l, db)).1.
Proof.
  intros Hl. unfold respond, response_List_Item.
  destruct (mapM response_Item l) as [js|] eqn:Hm; [|apply not_elem_of_nil].
  unfold response_ids. cbn [fmap option_fmap option_map fst content_of].
  apply mapM_Some in Hm. rewrite list_elem_of_omap. intros (j & Hj & Hs).
  apply list_elem_of_lookup in Hj as [i Hi].
  destruct (Forall2_lookup_r _ _ _ _ _ Hm Hi) as (db_item & Hi' & Hresp).
  apply response_Item_shown_id in Hresp.
  apply (Hl db_item); [by eapply list_elem_of_lookup_2|congruence].
Qed.

Lemma response_ids_error {A} (encode : A → option json) x db :
  response_ids (respond encode (inl x, db)).1 = [].
Proof. by destruct x. Qed.

Lemma names_id_false X body item :
  Item.model_validate body = inr item →
  names_id X (POST_items body) = false ∨ (∃ k, names_id X (PUT_item k body) = false) →
  Item.id item ≠ Some X.
Proof.
  intros Hvalid. unfold names_id. rewrite Hvalid.
  intros [H|[_ H]]; by apply bool_decide_eq_false in H.
Qed.

(** An id with no row that the sequence has passed stays so, and no
    response shows it, as long as no body names it. *)
Lemma app_retired X req db resp db' :
  in_int4 X = true → names_id X req = false → retired X db →
  app req db = (resp, db') →
  retired X db' ∧ (X ∉ response_ids resp) ∧ (req = GET_item X → resp = not_found).
Proof.
  intros HX Hreq Hret Happ. pose proof Hret as [Hnone Hseq].
  destruct req as [| |k|body|k body|k body|k]; unfold app in Happ.
  - injection Happ as <- <-. split_and!; [done|apply not_elem_of_nil|done].
  - unfold get_items, bind, scalars_all, ret in Happ.
    pose proof (f_equal snd Happ) as Hdb. rewrite respond_snd in Hdb.
    simpl in Hdb. subst db'.
    apply (f_equal fst) in Happ. cbn [fst] in Happ. subst resp.
    split_and!; [done| |done].
    apply response_ids_List. intros db_item [[k r] [-> Hkr]]%list_elem_of_fmap.
    apply elem_of_table_to_list in Hkr. simpl. congruence.
  - unfold get_item, bind, scalar_one_or_none in Happ.
    destruct (in_int4 k) eqn:Hint.
    2: { injection Happ as <- <-.
         split_and!; [done|apply not_elem_of_nil|intros [= ->]; congruence]. }
    destruct (lookup_item k db) as [o|] eqn:Hk.
    + apply lookup_item_Some in Hk as [Hid Hk].
      pose proof (f_equal snd Happ) as Hdb. rewrite respond_snd in Hdb.
      simpl in Hdb. subst db'. split_and!; [done| |congruence].
      replace resp with (respond response_Item (ret o db)).1 by by rewrite Happ.
      apply response_ids_Item. congruence.
    + injection Happ as <- <-. split_and!; [done|apply not_elem_of_nil|done].
  - destruct (Item.model_validate body) as [errs|item] eqn:Hvalid;
      [injection Happ as <- <-; split_and!; [done|apply not_elem_of_nil|done]|].
    assert (Item.id item ≠ Some X) as Hitem
      by (apply (names_id_false X body item Hvalid); by left).
    unfold create_item in Happ.
    destruct (bind _ refresh db) as [e db1] eqn:Hc.
    pose proof (f_equal snd Happ) as Hdb. rewrite respond_snd in Hdb.
    simpl in Hdb. subst db1.
    apply (f_equal fst) in Happ. cbn [fst] in Happ. subst resp.
    pose proof (init_id item) as Hid.
    assert (ItemDB.id (ItemDB.init (Item.model_dump_exclude_unset item)) ≠ Some X)
      as HidX by (rewrite Hid; by case_decide).
    apply commit_add_refresh in Hc
      as [(exc & -> & Hi & Hexc)
         |(k & -> & Hfree & Hl & Hi & Hcase & Hk & _)].
    + rewrite response_ids_error. unfold retired. rewrite Hi.
      split_and!; [done| |apply not_elem_of_nil|done].
      destruct Hexc as [[_ ->]|[_ [(k & _ & _ & ->)|(_ & _ & ->)]]]; [done..|lia].
    + assert (k ≠ X ∧ X ≤ items_id_seq db') as [Hne Hle].
      { destruct Hcase as [[Hidk ->]|(_ & -> & ->)]; [|lia].
        split; [congruence|done]. }
      unfold retired. rewrite Hi, table_lookup_insert_ne by done.
      split_and!; [done..| |done].
      apply response_ids_Item. simpl. congruence.
  - destruct (Item.model_validate body) as [errs|item] eqn:Hvalid;
      [injection Happ as <- <-; split_and!; [done|apply not_elem_of_nil|done]|].
    assert (Item.id item ≠ Some X) as Hitem
      by (apply (names_id_false X body item Hvalid); right; by exists k).
    destruct (lookup_item k db) as [old|] eqn:Hk.
    + rewrite (update_item_found _ _ _ old) in Happ by done.
      pose proof Hk as Hold.
      apply lookup_item_Some in Hk as [Hid Hk].
      assert (k ≠ X) by congruence.
      pose proof (updated_id old item) as Hnew.
      destruct (bind _ refresh db) as [e db1] eqn:Hc.
      pose proof (f_equal snd Happ) as Hdb. rewrite respond_snd in Hdb.
      simpl in Hdb. subst db1.
      apply (f_equal fst) in Happ. cbn [fst] in Happ. subst resp.
      apply commit_dirty_refresh in Hc
        as [[-> Hx]|(_ & k' & Hk' & _ & -> & Hl & ->)]; [| |done].
      { assert (∃ exc, e = inl exc) as [exc ->]
          by (destruct Hx as [[_ ->]|[(_ & _ & ->)|(_ & ? & _ & _ & _ & ->)]]; eauto).
        rewrite response_ids_error. split_and!; [done|apply not_elem_of_nil|done]. }
      assert (k' ≠ X).
      { rewrite Hnew in Hk'. case_decide; congruence. }
      unfold retired. cbn [items items_id_seq].
      rewrite table_lookup_insert_ne, table_lookup_delete_ne by done.
      split_and!; [done..| |done].
      apply response_ids_Item. congruence.
    + unfold update_item, bind, scalar_one_or_none in Happ. rewrite Hk in Happ.
      destruct (in_int4 k); injection Happ as <- <-;
        (split_and!; [done|apply not_elem_of_nil|done]).
  - destruct (ItemUpdate.model_validate body) as [errs|item_data] eqn:Hvalid;
      [injection Happ as <- <-; split_and!; [done|apply not_elem_of_nil|done]|].
    destruct (lookup_item k db) as [old|] eqn:Hk.
    + rewrite (patch_item_found _ _ _ old) in Happ by done.
      pose proof Hk as Hold.
      apply lookup_item_Some in Hk as [Hid Hk].
      assert (k ≠ X) by congruence.
      pose proof (patched_id old item_data) as Hnew. rewrite Hid in Hnew.
      destruct (bind _ refresh db) as [e db1] eqn:Hc.
      pose proof (f_equal snd Happ) as Hdb. rewrite respond_snd in Hdb.
      simpl in Hdb. subst db1.
      apply (f_equal fst) in Happ. cbn [fst] in Happ. subst resp.
      apply commit_dirty_refresh in Hc
        as [[-> Hx]|(_ & k' & Hk' & _ & -> & Hl & ->)]; [| |done].
      { assert (∃ exc, e = inl exc) as [exc ->]
          by (destruct Hx as [[_ ->]|[(_ & _ & ->)|(_ & ? & _ & _ & _ & ->)]]; eauto).
        rewrite response_ids_error. split_and!; [done|apply not_elem_of_nil|done]. }
      assert (k' = k) as -> by congruence.
      unfold retired. cbn [items items_id_seq].
      rewrite table_lookup_insert_ne, table_lookup_delete_ne by done.
      split_and!; [done..| |done].
      apply response_ids_Item. congruence.
    + unfold patch_item, bind, scalar_one_or_none in Happ. rewrite Hk in Happ.
      destruct (in_int4 k); injection Happ as <- <-;
        (split_and!; [done|apply not_elem_of_nil|done]).
  - unfold delete_item, bind, scalar_one_or_none in Happ.
    destruct (in_int4 k);
      [|injection Happ as <- <-; split_and!; [done|apply not_elem_of_nil|done]].
    destruct (lookup_item k db) as [old|] eqn:Hk.
    + injection Happ as <- <-. unfold retired. cbn [items items_id_seq].
      split_and!; [|done|apply not_elem_of_nil|done].
      destruct (decide (k = X)) as [->|]; [apply table_lookup_delete_eq|].
      by rewrite table_lookup_delete_ne.
    + injection Happ as <- <-. split_and!; [done|apply not_elem_of_nil|done].
Qed.

Lemma serve_retired X reqs : ∀ db resps db',
  in_int4 X = true →
  Forall (λ req, names_id X req = false) reqs → retired X db →
  serve reqs db = (resps, db') →
  retired X db' ∧
  Forall2 (λ req resp,
    (X ∉ response_ids resp) ∧ (req = GET_item X → resp = not_found)) reqs resps.
Proof.
  induction reqs as [|req reqs IH]; intros db resps db' HX Hreqs Hret Hserve.
  - injection Hserve as <- <-. by split.
  - simpl in Hserve. inversion_clear Hreqs as [|?? Hreq Hrest].
    destruct (app req db) as [resp db1] eqn:Happ.
    destruct (serve reqs db1) as [resps' db2] eqn:Hs.
    injection Hserve as <- <-.
    destruct (app_retired X _ _ _ _ HX Hreq Hret Happ) as (Hret1 & Hid & Hget).
    destruct (IH _ _ _ HX Hrest Hret1 Hs) as [Hret2 Hall].
    split; [done|]. by constructor.
Qed.

(** The sequence never goes back. *)
Lemma items_id_seq_mono req db :
  items_id_seq db ≤ items_id_seq (app req db).2.
Proof.
  destruct req as [| |k|body|k body|k body|k]; unfold app;
    try (destruct (Item.model_validate body) as [errs|item]; [done|]);
    try (destruct (ItemUpdate.model_validate body) as [errs|item]; [done|]);
    rewrite respond_snd.
  - done.
  - done.
  - unfold get_item, bind, scalar_one_or_none.
    destruct (in_int4 k); [|done]. by destruct (lookup_item k db).
  - unfold create_item. destruct (bind _ refresh db) as [e db1] eqn:Hc. simpl.
    apply commit_add_refresh in Hc
      as [(exc & _ & _ & [[_ ->]|[_ [(k & _ & _ & ->)|(_ & _ & ->)]]])
         |(k & _ & _ & _ & _ & [[_ ->]|(_ & -> & ->)] & _)];
      lia.
  - unfold update_item, bind at 1, scalar_one_or_none.
    destruct (in_int4 k); [|done].
    destruct (lookup_item k db) as [old|] eqn:Hold; [|done].
    destruct (bind _ refresh db) as [e db1] eqn:Hc. simpl.
    by apply commit_dirty_refresh in Hc as [[-> _]|(_ & k' & _ & _ & _ & _ & ->)].
  - unfold patch_item, bind at 1, scalar_one_or_none.
    destruct (in_int4 k); [|done].
    destruct (lookup_item k db) as [old|] eqn:Hold; [|done].
    destruct (bind _ refresh db) as [e db1] eqn:Hc. simpl.
    by apply commit_dirty_refresh in Hc as [[-> _]|(_ & k' & _ & _ & _ & _ & ->)].
  - unfold delete_item, bind, scalar_one_or_none.
    destruct (in_int4 k); [|done]. by destruct (lookup_item k db).
Qed.

(** The id a create is given when its body names none is the value of the
    sequence afterwards, so it is one the sequence has passed. *)
Lemma created_id_from_sequence body db resp db' k :
  ¬ carries_id (POST_items body) →
  app (POST_items body) db = (resp, db') →
  response_id resp = Some k →
  k = items_id_seq db'.
Proof.
  intros Hreq Happ. unfold app in Happ.
  destruct (Item.model_validate body) as [errs|item] eqn:Hvalid;
    [by injection Happ as <- <-|].
  destruct (Item_validate_object _ _ Hvalid) as [members ->].
  assert (f_id ∉ Item.model_fields_set item) as Hset.
  { rewrite (Item_fields_set members) by done. done. }
  unfold create_item in Happ.
  destruct (bind _ refresh db) as [e db1] eqn:Hc.
  pose proof (f_equal snd Happ) as Hdb. rewrite respond_snd in Hdb.
  simpl in Hdb. subst db1.
  apply (f_equal fst) in Happ. cbn [fst] in Happ. subst resp.
  pose proof (init_id item) as Hid. rewrite decide_False in Hid by done.
  apply commit_add_refresh in Hc
    as [(exc & -> & _)|(k' & -> & _ & _ & _ & [[? _]|(_ & -> & Hs)] & _)];
    try congruence.
  - by rewrite respond_error_id.
  - rewrite Hs. intros Hk.
    destruct (decide (k = items_id_seq db + 1)) as [|Hne]; [done|].
    by eapply response_Item_other in Hk; [|simpl; congruence].
Qed.

(** C6 (amended).  After a successful DELETE of [X], where [X] is not
    above the last value of the id sequence, serve any requests of which no
    create or PUT body names the id [X]: no response shows an item with id
    [X], neither alone nor in a list, every GET of [X] among them is
    answered 404, and so is a GET of [X] afterwards. *)
Theorem deleted_id_not_reused X db resp db1 reqs resps db2 :
  app (DELETE_item X) db = (resp, db1) →
  status resp = 200 →
  X ≤ items_id_seq db →
  Forall (λ req, names_id X req = false) reqs →
  serve reqs db1 = (resps, db2) →
  app (GET_item X) db2 = (not_found, db2) ∧
  Forall2 (λ req resp,
    (X ∉ response_ids resp) ∧ (req = GET_item X → resp = not_found)) reqs resps.
Proof.
  intros Hdel Hstatus Hseq Hreqs Hserve.
  assert (is_Some (items db !! X)) as Hsome.
  { destruct (items db !! X) as [r|] eqn:HX; [by eauto|].
    destruct (in_int4 X) eqn:Hk.
    - rewrite delete_item_missing in Hdel by done. by injection Hdel as <- <-.
    - rewrite delete_item_refused in Hdel by done. by injection Hdel as <- <-. }
  assert (in_int4 X = true) as Hk.
  { destruct Hsome as [r Hr]. by apply lookup_in_int4 in Hr. }
  assert (retired X db1) as Hret.
  { rewrite delete_item_found in Hdel by done. injection Hdel as _ <-.
    split; [apply table_lookup_delete_eq|done]. }
  destruct (serve_retired X reqs _ _ _ Hk Hreqs Hret Hserve) as [[Hnone _] Hall].
  split; [|done]. by apply get_item_missing.
Qed.
End claims.

(** * The claims at concrete requests *)

(** C2.  The code at the failing input: after one create, a PUT on id 1
    whose body names id 2 is answered 200 and moves the row; GET on 1 is
    then 404 and GET on 2 shows the item. *)
Theorem update_item_moves_row :
  serve (scalars:=exact_types)
    [POST_items test_item; PUT_item 1 (with_id 2 "Test Item" 10);
     GET_item 1; GET_item 2] create_all =
  ([shown 1 "Test Item" 10; shown 2 "Test Item" 10; not_found;
    shown 2 "Test Item" 10],
   {| items := {[2 := plain_row "Test Item" 10]}; items_id_seq := 1 |}).
Proof. vm_compute. reflexivity. Qed.

(** C3, the counterexample.  A create that names id 1 does not move the
    sequence, so the next create without an id is given 1 again, the INSERT
    fails and the answer is 500.  A name that holds U+0000 is refused by
    the server: 500, and nothing is stored.  A price that is not a number
    is stored, and shown as null.  When the sequence is at the end of the
    integer range the create is answered 500. *)
Lemma create_item_taken_id :
  (serve (scalars:=exact_types) [POST_items (with_id 1 "A" 10); POST_items test_item]
     create_all).1 =
  [shown 1 "A" 10; {| status := 500; content_of := InternalServerError |}] ∧
  app (scalars:=exact_types)
    (POST_items (JObj [("name"%string, JStr nul_name); ("price"%string, JFloat 10)]))
    create_all = (internal_server_error, create_all) ∧
  app (scalars:=exact_types)
    (POST_items (JObj [("name"%string, JStr "Test Item"); ("price"%string, JFloat nan)]))
    create_all =
  (ok (JObj [("id"%string, JInt 1); ("name"%string, JStr "Test Item");
             ("description"%string, JNull); ("price"%string, JNull);
             ("available"%string, JBool true)]),
   single 1 (plain_row "Test Item" nan)) ∧
  app (scalars:=exact_types) (POST_items test_item)
    {| items := ∅; items_id_seq := 2147483647 |} =
  (internal_server_error, {| items := ∅; items_id_seq := 2147483647 |}).
Proof. split_and!; vm_compute; reflexivity. Qed.

(** C6, the counterexample.  After DELETE of id 1, GET on 1 is 404; a create
    that names id 1 is accepted, and GET on 1 is 200 again.  So it is after
    a PUT on another item whose body names id 1.  And an id above the
    sequence, here 2, is given to a later create once deleted. *)
Lemma deleted_id_reused :
  (serve (scalars:=exact_types)
     [POST_items test_item; DELETE_item 1; GET_item 1;
      POST_items (with_id 1 "A" 10); GET_item 1] create_all).1 =
  [shown 1 "Test Item" 10;
   ok (JObj [("detail"%string, JStr "Item 1 deleted")]);
   not_found; shown 1 "A" 10; shown 1 "A" 10] ∧
  (serve (scalars:=exact_types)
     [POST_items test_item; POST_items test_item; DELETE_item 1;
      PUT_item 2 (with_id 1 "A" 10); GET_item 1] create_all).1 =
  [shown 1 "Test Item" 10; shown 2 "Test Item" 10;
   ok (JObj [("detail"%string, JStr "Item 1 deleted")]);
   shown 1 "A" 10; shown 1 "A" 10] ∧
  (serve (scalars:=exact_types)
     [POST_items (with_id 2 "A" 10); DELETE_item 2;
      POST_items test_item; POST_items test_item] create_all).1 =
  [shown 2 "A" 10;
   ok (JObj [("detail"%string, JStr "Item 2 deleted")]);
   shown 1 "Test Item" 10; shown 2 "Test Item" 10].
Proof. split_and!; vm_compute; reflexivity. Qed.

(** C7, the counterexample.  The id 2147483648 has no row, and the integer
    column cannot hold it: GET, DELETE and PATCH on it are answered 500.
    PUT on the missing id 999 with a body that has neither [name] nor
    [price] is answered 422. *)
Lemma missing_item_out_of_range :
  items create_all !! 2147483648 = None ∧
  app (scalars:=exact_types) (GET_item 2147483648) create_all =
    (internal_server_error, create_all) ∧
  app (scalars:=exact_types) (DELETE_item 2147483648) create_all =
    (internal_server_error, create_all) ∧
  app (scalars:=exact_types) (PATCH_item 2147483648 (JObj [])) create_all =
    (internal_server_error, create_all) ∧
  app (scalars:=exact_types) (PUT_item 999 (JObj [])) create_all =
    ({| status := 422;
        content_of := RequestValidationError
          [(in_field f_name, missing); (in_field f_price, missing)] |},
     create_all).
Proof. split_and!; vm_compute; reflexivity. Qed.

(** C10, the counterexample.  DELETE and PUT on the id 2147483648, which
    has no row, are answered 500 and not 404; the database is unchanged. *)
Lemma missing_item_server_error :
  items create_all !! 2147483648 = None ∧
  app (scalars:=exact_types) (DELETE_item 2147483648) create_all =
    (internal_server_error, create_all) ∧
  app (scalars:=exact_types) (PUT_item 2147483648 test_item) create_all =
    (internal_server_error, create_all).
Proof. split_and!; vm_compute; reflexivity. Qed.

Lemma create_item_name_price_witness :
  Item.model_validate (scalars:=exact_types) test_item =
    inr (Item.mk None "Test Item" None 10 true [f_name; f_price]) ∧
  stores_name "Test Item" = true ∧
  is_finite 10 = true ∧
  in_int4 (items_id_seq create_all + 1) = true ∧
  items create_all !! 1 = None ∧
  app (scalars:=exact_types) (POST_items test_item) create_all =
  (shown 1 "Test Item" 10, single 1 (plain_row "Test Item" 10)).
Proof.
  split_and!; [reflexivity..|].
  exact (create_item_name_price (scalars:=exact_types) test_item
           (Item.mk None "Test Item" None 10 true [f_name; f_price])
           create_all eq_refl eq_refl eq_refl eq_refl eq_refl eq_refl).
Defined.

Lemma create_then_get_witness :
  app (scalars:=exact_types) (POST_items test_item) create_all =
    (shown 1 "Test Item" 10, single 1 (plain_row "Test Item" 10)) ∧
  ∃ k rest,
    content_of (shown 1 "Test Item" 10) = JSON (JObj (("id"%string, JInt k) :: rest)) ∧
    app (scalars:=exact_types) (GET_item k) (single 1 (plain_row "Test Item" 10)) =
    (shown 1 "Test Item" 10, single 1 (plain_row "Test Item" 10)).
Proof.
  split; [reflexivity|].
  exact (create_then_get (scalars:=exact_types) test_item create_all
           (shown 1 "Test Item" 10) (single 1 (plain_row "Test Item" 10))
           eq_refl eq_refl).
Defined.

Lemma update_item_witness :
  app (scalars:=exact_types) (PUT_item 1 (JObj updated_body)) (single 1 stored_row) =
    (ok (Item.to_json
       (Item.mk (Some 1) "Updated Item" (Some "as created") 20 false [])),
     single 1 updated_row) ∧
  ∃ new,
    lookup_item 1 (single 1 updated_row) = Some new ∧
    ItemDB.description new = Some "as created"%string ∧
    ItemDB.available new = Some false ∧
    ItemDB.name new = Some "Updated Item"%string ∧
    ItemDB.price new = Some 20%float.
Proof.
  assert (app (scalars:=exact_types) (PUT_item 1 (JObj updated_body))
            (single 1 stored_row) =
          (ok (Item.to_json
             (Item.mk (Some 1) "Updated Item" (Some "as created") 20 false [])),
           single 1 updated_row)) as Happ by reflexivity.
  split; [exact Happ|].
  destruct (update_item_overwrites_only_supplied (scalars:=exact_types) 1 updated_body
              (Item.mk None "Updated Item" None 20 true [f_name; f_price])
              (single 1 stored_row) (load 1 stored_row)
              (ok (Item.to_json
                 (Item.mk (Some 1) "Updated Item" (Some "as created") 20 false [])))
              (single 1 updated_row) eq_refl eq_refl Happ)
    as (new & Hkept & Hset & _ & Hshown).
  exists new.
  destruct (Hshown eq_refl) as (k & Hk & Hl & _).
  pose proof (Hkept f_id eq_refl) as Hid.
  pose proof (Hkept f_description eq_refl) as Hd.
  pose proof (Hkept f_available eq_refl) as Ha.
  pose proof (Hset f_name (mk_is_Some _ _ eq_refl)) as Hn.
  pose proof (Hset f_price (mk_is_Some _ _ eq_refl)) as Hp.
  rewrite Item_dump_entry in Hn, Hp. simpl in Hid, Hd, Ha, Hn, Hp.
  assert (k = 1) as -> by congruence.
  split_and!; congruence.
Defined.

(** C5 at the example of the specification: an item with name A and price
    10.0, PATCH with only the name B. *)
Lemma patch_item_witness :
  app (scalars:=exact_types) (PATCH_item 1 (JObj patch_body)) (single 1 (plain_row "A" 10)) =
    (shown 1 "B" 10, single 1 (plain_row "B" 10)) ∧
  ∃ new,
    lookup_item 1 (single 1 (plain_row "B" 10)) = Some new ∧
    ItemDB.price new = Some 10%float ∧
    ItemDB.name new = Some "B"%string.
Proof.
  assert (app (scalars:=exact_types) (PATCH_item 1 (JObj patch_body))
            (single 1 (plain_row "A" 10)) =
          (shown 1 "B" 10, single 1 (plain_row "B" 10))) as Happ by reflexivity.
  split; [exact Happ|].
  destruct (patch_item_preserves_unsupplied (scalars:=exact_types) 1 patch_body
              (ItemUpdate.mk (Some "B"%string) None None None [f_name])
              (single 1 (plain_row "A" 10)) (load 1 (plain_row "A" 10))
              (shown 1 "B" 10) (single 1 (plain_row "B" 10))
              eq_refl eq_refl Happ)
    as (new & Hkept & Hset & _ & _ & Hwritten).
  exists new.
  pose proof (Hkept f_price eq_refl) as Hp.
  pose proof (Hset f_name ltac:(discriminate) (mk_is_Some _ _ eq_refl)) as Hn.
  rewrite ItemUpdate_dump_entry in Hn. simpl in Hp, Hn.
  destruct (refuses_update _ new); [by destruct Hwritten as [_ [=]]|].
  destruct Hwritten as (_ & Hl & _).
  split_and!; congruence.
Defined.

Lemma missing_item_not_found_witness :
  in_int4 999 = true ∧
  items create_all !! 999 = None ∧
  app (scalars:=exact_types) (GET_item 999) create_all = (not_found, create_all) ∧
  app (scalars:=exact_types) (DELETE_item 999) create_all = (not_found, create_all) ∧
  (∀ body, validation_errors (scalars:=exact_types) (PUT_item 999 body) = None →
           app (scalars:=exact_types) (PUT_item 999 body) create_all = (not_found, create_all)) ∧
  (∀ body, validation_errors (scalars:=exact_types) (PATCH_item 999 body) = None →
           app (scalars:=exact_types) (PATCH_item 999 body) create_all = (not_found, create_all)).
Proof.
  split; [reflexivity|]. split; [reflexivity|].
  exact (missing_item_not_found (scalars:=exact_types) 999 create_all eq_refl eq_refl).
Defined.

Lemma delete_item_deletes_witness :
  is_Some (items (single 12 (plain_row "Test Item" 10)) !! 12) ∧
  ∃ db',
    app (scalars:=exact_types) (DELETE_item 12) (single 12 (plain_row "Test Item" 10)) =
    (ok (JObj [("detail"%string, JStr "Item 12 deleted")]), db') ∧
    items db' !! 12 = None ∧
    (∀ k, k ≠ 12 → items db' !! k = items (single 12 (plain_row "Test Item" 10)) !! k) ∧
    app (scalars:=exact_types) (GET_item 12) db' = (not_found, db').
Proof.
  split; [exact (mk_is_Some _ _ eq_refl)|].
  exact (delete_item_deletes (scalars:=exact_types) 12 (single 12 (plain_row "Test Item" 10))
           (mk_is_Some _ _ eq_refl)).
Defined.

Lemma missing_item_store_unchanged_witness :
  items create_all !! 999 = None ∧
  (app (scalars:=exact_types) (PUT_item 999 test_item) create_all).2 = create_all ∧
  (app (scalars:=exact_types) (PUT_item 999 test_item) create_all).1 = not_found.
Proof.
  split; [reflexivity|].
  exact (missing_item_store_unchanged (scalars:=exact_types) 999 (PUT_item 999 test_item)
           create_all eq_refl
           (or_intror (ex_intro _ test_item (or_introl eq_refl)))).
Defined.

Lemma no_later_request_names_id :
  Forall (λ req, names_id (scalars:=exact_types) 1 req = false) later_requests.
Proof. unfold later_requests. repeat (constructor; [reflexivity|]). constructor. Defined.

Lemma deleted_id_not_reused_witness :
  app (scalars:=exact_types) (DELETE_item 1) (single 1 (plain_row "Test Item" 10)) =
    (ok (JObj [("detail"%string, JStr "Item 1 deleted")]),
     {| items := ∅; items_id_seq := 1 |}) ∧
  1 ≤ items_id_seq (single 1 (plain_row "Test Item" 10)) ∧
  serve (scalars:=exact_types) later_requests {| items := ∅; items_id_seq := 1 |} =
    ([shown 2 "Test Item" 10; not_found; shown 7 "C" 30; shown 2 "Updated Item" 20;
      shown 2 "B" 20;
      ok (JObj [("detail"%string, JStr "Item 7 deleted")]);
      ok (JArr [JObj [("id"%string, JInt 2); ("name"%string, JStr "B");
                      ("description"%string, JNull); ("price"%string, JFloat 20);
                      ("available"%string, JBool true)]])],
     single 2 (plain_row "B" 20)) ∧
  app (scalars:=exact_types) (GET_item 1) (single 2 (plain_row "B" 20)) =
    (not_found, single 2 (plain_row "B" 20)) ∧
  Forall2 (λ req resp,
    (1 ∉ response_ids resp) ∧ (req = GET_item 1 → resp = not_found))
    later_requests
    [shown 2 "Test Item" 10; not_found; shown 7 "C" 30; shown 2 "Updated Item" 20;
     shown 2 "B" 20;
     ok (JObj [("detail"%string, JStr "Item 7 deleted")]);
     ok (JArr [JObj [("id"%string, JInt 2); ("name"%string, JStr "B");
                     ("description"%string, JNull); ("price"%string, JFloat 20);
                     ("available"%string, JBool true)]])].
Proof.
  split; [reflexivity|]. split; [simpl; lia|]. split; [reflexivity|].
  exact (deleted_id_not_reused (scalars:=exact_types) 1
           (single 1 (plain_row "Test Item" 10))
           (ok (JObj [("detail"%string, JStr "Item 1 deleted")]))
           {| items := ∅; items_id_seq := 1 |} later_requests _
           (single 2 (plain_row "B" 20))
           eq_refl eq_refl ltac:(simpl; lia) no_later_request_names_id eq_refl).
Defined.

Lemma invalid_body_witness :
  dict_get (field_name f_price) [("name"%string, JStr "Test Item")] = None ∧
  ∃ errs,
    app (scalars:=exact_types) (POST_items (JObj [("name"%string, JStr "Test Item")]))
      (single 1 (plain_row "A" 10)) =
    ({| status := 422; content_of := RequestValidationError errs |},
     single 1 (plain_row "A" 10)).
Proof.
  split; [reflexivity|].
  destruct (invalid_body_rejected_before_storage (scalars:=exact_types))
    as (Hrejected & Hmissing & _).
  destruct (Hmissing 0 [("name"%string, JStr "Test Item")] f_price
              (or_intror eq_refl) eq_refl) as [[errs Herrs] _].
  exists errs. by apply Hrejected.
Defined.

(** * Further properties of the service *)

Section further.
Context {scalars : Scalars} {postgres : Postgres}.

Lemma response_Item_complete k r :
  is_Some (response_Item (load k r)) ↔ complete r.
Proof.
  unfold response_Item, from_attributes, complete. destruct r as [n d p a]; simpl.
  rewrite !is_Some_alt. destruct n, p, a; simpl; tauto.
Qed.

Lemma get_item_found k r db :
  items db !! k = Some r →
  app (GET_item k) db = respond response_Item (inr (load k r), db).
Proof.
  intros Hr. unfold app, get_item, bind, scalar_one_or_none, lookup_item.
  by rewrite (lookup_in_int4 _ _ _ Hr), Hr.
Qed.

(** X1.  GET on an id that has a row: when [name], [price] and [available]
    of the row are not NULL the answer is 200 and shows the row under that
    id; when one of them is NULL the response model refuses the row and the
    answer is 500.  The database is not changed. *)
Theorem get_item_of_row k r db :
  items db !! k = Some r →
  (complete r →
   ∃ j, app (GET_item k) db = (ok j, db) ∧ response_Item (load k r) = Some j ∧
        response_id (ok j) = Some k) ∧
  (¬ complete r → app (GET_item k) db = (internal_server_error, db)).
Proof.
  intros Hr. rewrite (get_item_found k r) by done. split.
  - intros Hc. destruct (proj2 (response_Item_complete k r) Hc) as [j Hj].
    exists j. unfold respond. rewrite Hj.
    split_and!; [done..|].
    unfold response_Item, from_attributes in Hj. simpl in Hj.
    destruct (c_name r), (c_price r), (c_available r); try done.
    by injection Hj as <-.
  - intros Hc. unfold respond.
    destruct (response_Item (load k r)) eqn:Hj; [|done].
    destruct Hc. apply (response_Item_complete k). by rewrite Hj.
Qed.

Lemma get_items_all db :
  app GET_items db =
  respond response_List_Item
    (inr ((λ kr, load kr.1 kr.2) <$> table_to_list (items db)), db).
Proof. reflexivity. Qed.

(** X2.  GET /items on a table whose rows all pass the response model: the
    answer is 200 with a list that has one element per row, and its
    elements are exactly the items GET /items/{id} shows for the ids that
    have a row.  The database is not changed. *)
Theorem get_items_lists_rows db :
  all_complete db →
  ∃ l, app GET_items db = (ok (JArr l), db) ∧
       length l = size (items db) ∧
       ∀ j, j ∈ l ↔ ∃ k, is_Some (items db !! k) ∧ app (GET_item k) db = (ok j, db).
Proof.
  intros Hall. rewrite get_items_all. unfold respond, response_List_Item.
  destruct (mapM response_Item _) as [l|] eqn:Hl.
  - exists l. split; [done|].
    pose proof (length_mapM _ _ _ Hl) as Hlen.
    rewrite length_fmap, length_table_to_list in Hlen. split; [done|].
    apply mapM_Some in Hl. intros j. split.
    + intros [i Hi]%list_elem_of_lookup.
      destruct (Forall2_lookup_r _ _ _ _ _ Hl Hi) as (o & Ho & Hj).
      apply list_lookup_fmap_Some in Ho as ([k r] & -> & Hkr). simpl in Hj.
      apply list_elem_of_lookup_2, elem_of_table_to_list in Hkr.
      exists k. split; [by eauto|].
      rewrite (get_item_found k r) by done. unfold respond. by rewrite Hj.
    + intros (k & [r Hr] & Hget).
      rewrite (get_item_found k r) in Hget by done. unfold respond in Hget.
      destruct (response_Item (load k r)) as [j'|] eqn:Hj; [|done].
      injection Hget as ->.
      apply elem_of_table_to_list, list_elem_of_lookup in Hr as [i Hi].
      assert (((λ kr, load kr.1 kr.2) <$> table_to_list (items db)) !! i = Some (load k r)) as Ho.
      { by rewrite list_lookup_fmap, Hi. }
      destruct (Forall2_lookup_l _ _ _ _ _ Hl Ho) as (j' & Hj' & Hjj).
      rewrite Hj in Hjj. injection Hjj as ->. by eapply list_elem_of_lookup_2.
  - exfalso. apply mapM_None, Exists_exists in Hl as (o & Ho & Hnone).
    apply list_elem_of_fmap in Ho as ([k r] & -> & Hkr%elem_of_table_to_list).
    simpl in Hnone. apply Hall in Hkr. apply (response_Item_complete k) in Hkr.
    rewrite Hnone in Hkr. by destruct Hkr.
Qed.

Lemma Item_required_set body item :
  Item.model_validate body = inr item →
  f_name ∈ Item.model_fields_set item ∧ f_price ∈ Item.model_fields_set item.
Proof.
  intros Hvalid. destruct (Item_validate_object _ _ Hvalid) as [members ->].
  revert Hvalid. unfold Item.model_validate.
  set (p_id := parse _ f_id _). set (p_name := parse _ f_name _).
  set (p_description := parse _ f_description _). set (p_price := parse _ f_price _).
  set (p_available := parse _ f_available _).
  destruct (check_optional f_id p_id ++ _) as [|e errs]; [|done].
  destruct p_name as [|n|]; [done| |done].
  destruct p_price as [|p|]; [done| |done].
  intros [= <-]. simpl.
  repeat (rewrite elem_of_app || rewrite elem_of_cons). tauto.
Qed.

(** The attributes of the object after the loop of [update_item]. *)
Lemma updated_attr old item f :
  ItemDB.getattr (foldl ItemDB.setattr old (Item.model_dump_exclude_unset item)) f =
  if decide (f ∈ Item.model_fields_set item)
  then ItemDB.getattr
    {| ItemDB.id := Item.id item; ItemDB.name := Some (Item.name item);
       ItemDB.description := Item.description item;
       ItemDB.price := Some (Item.price item);
       ItemDB.available := Some (Item.available item) |} f
  else ItemDB.getattr old f.
Proof.
  unfold Item.model_dump_exclude_unset.
  rewrite getattr_foldl_setattr, dict_attr_exclude_unset, Item_dump_entry.
  by case_decide.
Qed.

(** The attributes of the object after the loop of [patch_item]. *)
Lemma patched_attr old item_data f :
  ItemDB.getattr
    (foldl ItemDB.setattr old (ItemUpdate.model_dump_exclude_unset item_data)) f =
  if decide (f ∈ ItemUpdate.model_fields_set item_data ∧ f ≠ f_id)
  then ItemDB.getattr
    {| ItemDB.id := None; ItemDB.name := ItemUpdate.name item_data;
       ItemDB.description := ItemUpdate.description item_data;
       ItemDB.price := ItemUpdate.price item_data;
       ItemDB.available := ItemUpdate.available item_data |} f
  else ItemDB.getattr old f.
Proof.
  unfold ItemUpdate.model_dump_exclude_unset.
  rewrite getattr_foldl_setattr, dict_attr_exclude_unset, ItemUpdate_dump_entry.
  repeat case_decide; try done; tauto.
Qed.

Lemma written_name_price old item :
  f_name ∈ Item.model_fields_set item → f_price ∈ Item.model_fields_set item →
  ∃ new, new = foldl ItemDB.setattr old (Item.model_dump_exclude_unset item) ∧
  ItemDB.name new = Some (Item.name item) ∧
  ItemDB.price new = Some (Item.price item) ∧
  (is_Some (ItemDB.available old) → is_Some (ItemDB.available new)).
Proof.
  intros Hn Hp. eexists. split; [done|].
  set (new := foldl _ _ _).
  pose proof (updated_attr old item f_name) as H1. rewrite decide_True in H1 by done.
  pose proof (updated_attr old item f_price) as H2. rewrite decide_True in H2 by done.
  pose proof (updated_attr old item f_available) as H3.
  simpl in H1, H2, H3. fold new in H1, H2, H3.
  split_and!; [congruence..|].
  case_decide; simplify_eq; [by eauto|]. by rewrite H3.
Qed.

Lemma create_item_outcome item db e db1 :
  f_name ∈ Item.model_fields_set item → f_price ∈ Item.model_fields_set item →
  create_item item db = (e, db1) →
  (∃ x, e = inl x ∧ (∀ s d, x ≠ HTTPException s d) ∧ items db1 = items db ∧
        items_id_seq db ≤ items_id_seq db1) ∨
  (∃ k r, e = inr (load k r) ∧ complete r ∧ items db !! k = None ∧
          items db1 = <[k := r]> (items db) ∧
          items_id_seq db ≤ items_id_seq db1 ∧ in_int4 k = true).
Proof.
  intros Hn Hp. unfold create_item. intros Hc.
  destruct (written_name_price ItemDB.new item Hn Hp) as (new & Hnew & Hname & Hprice & _).
  apply commit_add_refresh in Hc
    as [(exc & -> & Hi & Hexc)|(k & -> & Hfree & _ & Hi & Hs & Hk & _)].
  - left. exists exc. split; [done|].
    destruct Hexc as [[-> ->]|[-> [(k & _ & _ & ->)|(_ & _ & Hs)]]];
      split_and!; try done; lia.
  - right. exists k, (inserted_columns (ItemDB.init (Item.model_dump_exclude_unset item))).
    split_and!; try done.
    + unfold complete, inserted_columns, ItemDB.init.
      cbn [c_name c_price c_available]. rewrite <- Hnew, Hname, Hprice. eauto.
    + destruct Hs as [[_ ->]|(_ & -> & ->)]; lia.
Qed.

Lemma respond_complete k r db :
  complete r →
  ∃ j, respond response_Item (inr (load k r), db) = (ok j, db) ∧
       response_Item (load k r) = Some j.
Proof.
  intros Hc. destruct (proj2 (response_Item_complete k r) Hc) as [j Hj].
  exists j. unfold respond. by rewrite Hj.
Qed.

Lemma respond_exception x db :
  (∀ s d, x ≠ HTTPException s d) →
  respond response_Item (inl x, db) = (internal_server_error, db).
Proof. intros Hx. destruct x; [by destruct (Hx status_code detail)|done..]. Qed.

Lemma all_complete_insert db k r (t : table) :
  all_complete db → complete r →
  (∀ k' r', t !! k' = Some r' → items db !! k' = Some r') →
  ∀ k' r', <[k := r]> t !! k' = Some r' → complete r'.
Proof.
  intros Hall Hr Hm k' r'.
  intros [[_ <-]|[_ Hk]]%table_lookup_insert_Some; [done|]. eapply Hall, Hm, Hk.
Qed.

Lemma lookup_item_row item_id r db :
  items db !! item_id = Some r → lookup_item item_id db = Some (load item_id r).
Proof. intros Hr. unfold lookup_item. by rewrite Hr. Qed.

(** What [update_item] does to a row that is there and complete. *)
Lemma update_item_complete item_id body item db r :
  items db !! item_id = Some r → complete r →
  Item.model_validate body = inr item →
  (∃ x, update_item item_id item db = (inl x, db) ∧
        ∀ s d, x ≠ HTTPException s d) ∨
  (∃ k r', update_item item_id item db =
             (inr (load k r'),
              {| items := <[k := r']> (delete item_id (items db));
                 items_id_seq := items_id_seq db |}) ∧
           complete r' ∧ (k = item_id ∨ items db !! k = None)).
Proof.
  intros Hr Hc Hvalid. destruct (Item_required_set _ _ Hvalid) as [Hn Hp].
  pose proof (lookup_item_row _ _ _ Hr) as Hold.
  rewrite (update_item_found _ _ _ _ Hold).
  destruct (written_name_price (load item_id r) item Hn Hp)
    as (new & Hnew & Hname & Hprice & Havail). rewrite <- Hnew.
  destruct (bind _ refresh db) as [e db1] eqn:Hcommit.
  pose proof Hcommit as Hcommit'.
  apply commit_dirty_refresh in Hcommit
    as [[-> Hx]|(Href & k & Hk & _ & -> & Hl & ->)]; [| |done].
  - left. destruct Hx as [[_ ->]|[(_ & _ & ->)|(_ & k & _ & _ & _ & ->)]]; eauto.
  - right. exists k, (columns new). rewrite (load_columns _ _ Hk).
    split_and!; [done| |].
    + unfold complete. simpl. rewrite Hname, Hprice. split_and!; [by eauto..|].
      apply Havail. simpl. apply Hc.
    + destruct (decide (k = item_id)) as [|Hne]; [by left|right].
      unfold bind, commit_dirty in Hcommit'. rewrite Href, Hk in Hcommit'.
      rewrite decide_False in Hcommit' by done.
      by destruct (items db !! k).
Qed.

(** X3.  No request other than a PATCH stores NULL in [name], [price] or
    [available]: when every row has the three, every row still has them
    after the request. *)
Theorem complete_rows_kept req db :
  all_complete db →
  (∀ item_id body, req ≠ PATCH_item item_id body) →
  all_complete (app req db).2.
Proof.
  intros Hall Hreq.
  destruct req as [| |k|body|k body|k body|k]; unfold app;
    try (destruct (Item.model_validate body) as [errs|item] eqn:Hvalid; [done|]);
    rewrite ?respond_snd.
  - done.
  - done.
  - unfold get_item, bind, scalar_one_or_none.
    destruct (in_int4 k); [|done]. by destruct (lookup_item k db).
  - destruct (Item_required_set _ _ Hvalid) as [Hn Hp].
    destruct (create_item item db) as [e db1] eqn:Hc.
    apply create_item_outcome in Hc
      as [(x & _ & _ & Hi & _)|(k & r & _ & Hr & _ & Hi & _)];
      [..|done|done]; unfold all_complete; simpl; rewrite Hi; [done|].
    by apply (all_complete_insert db k r (items db)).
  - destruct (items db !! k) as [r|] eqn:Hr.
    + destruct (update_item_complete k body item db r) as [(x & -> & _)|(k' & r' & -> & Hc & _)];
        [by eauto using Hall..| |]; [done|].
      unfold all_complete. simpl.
      apply (all_complete_insert db k' r' (delete k (items db))); [done..|].
      intros k1 r1 [_ ?]%table_lookup_delete_Some. done.
    + apply lookup_item_None in Hr.
      unfold update_item, bind, scalar_one_or_none. rewrite Hr.
      by destruct (in_int4 k).
  - by destruct (Hreq k body).
  - unfold delete_item, bind, scalar_one_or_none.
    destruct (in_int4 k); [|done].
    destruct (lookup_item k db); [|done]. unfold all_complete. simpl.
    intros k1 r1 [_ ?]%table_lookup_delete_Some. by eapply Hall.
Qed.

(** X4.  On a table whose rows all have [name], [price] and [available], a
    request other than a PATCH that is not answered 200 leaves every row as
    it was. *)
Theorem error_writes_no_row req db :
  all_complete db →
  (∀ item_id body, req ≠ PATCH_item item_id body) →
  status (app req db).1 ≠ 200 →
  items (app req db).2 = items db.
Proof.
  intros Hall Hreq.
  destruct req as [| |k|body|k body|k body|k]; unfold app;
    try (destruct (Item.model_validate body) as [errs|item] eqn:Hvalid; [done|]);
    rewrite ?respond_snd.
  - done.
  - done.
  - unfold get_item, bind, scalar_one_or_none.
    destruct (in_int4 k); [|done]. by destruct (lookup_item k db).
  - destruct (Item_required_set _ _ Hvalid) as [Hn Hp].
    destruct (create_item item db) as [e db1] eqn:Hc.
    apply create_item_outcome in Hc
      as [(x & _ & _ & Hi & _)|(k & r & -> & Hr & _ & Hi & _)];
      [done| |done..].
    destruct (respond_complete k r db1 Hr) as (j & -> & _). done.
  - destruct (items db !! k) as [r|] eqn:Hr.
    + destruct (update_item_complete k body item db r) as [(x & -> & _)|(k' & r' & -> & Hc & _)];
        [by eauto using Hall..| |]; [done|].
      destruct (respond_complete k' r' {| items := <[k':=r']> (delete k (items db));
                                         items_id_seq := items_id_seq db |} Hc)
        as (j & -> & _). done.
    + apply lookup_item_None in Hr.
      unfold update_item, bind, scalar_one_or_none. rewrite Hr.
      by destruct (in_int4 k).
  - by destruct (Hreq k body).
  - unfold delete_item, bind, scalar_one_or_none.
    destruct (in_int4 k); [|done].
    by destruct (lookup_item k db).
Qed.

Lemma ItemDB_getattr_inj o1 o2 :
  (∀ f, ItemDB.getattr o1 f = ItemDB.getattr o2 f) → o1 = o2.
Proof.
  intros Hf. destruct o1, o2.
  pose proof (Hf f_id). pose proof (Hf f_name). pose proof (Hf f_description).
  pose proof (Hf f_price). pose proof (Hf f_available). simpl in *. congruence.
Qed.

(** Running the loop of [setattr] twice with the same dict is running it
    once. *)
Lemma foldl_setattr_twice o d :
  foldl ItemDB.setattr (foldl ItemDB.setattr o d) d = foldl ItemDB.setattr o d.
Proof.
  apply ItemDB_getattr_inj. intros f. rewrite !getattr_foldl_setattr.
  by destruct (dict_attr f d).
Qed.

Lemma refuses_update_same db_item : refuses_update db_item db_item = false.
Proof. unfold refuses_update. by rewrite !bool_decide_false by (by intros []). Qed.

(** The UPDATE and the refresh for an object that kept its id. *)
Lemma commit_same_id item_id old new db :
  in_int4 item_id = true →
  ItemDB.id new = Some item_id →
  bind (commit_dirty item_id old new) refresh db =
  if refuses_update old new then (inl DataError, db)
  else (inr new, {| items := <[item_id := columns new]> (items db);
                    items_id_seq := items_id_seq db |}).
Proof.
  intros Hk Hid. unfold bind, commit_dirty, refresh.
  destruct (refuses_update old new); [done|].
  rewrite Hid, decide_True by done. by rewrite lookup_item_insert.
Qed.

Lemma patch_item_row item_id item_data db r :
  items db !! item_id = Some r →
  ∃ new,
    new = foldl ItemDB.setattr (load item_id r)
            (ItemUpdate.model_dump_exclude_unset item_data) ∧
    ItemDB.id new = Some item_id ∧
    patch_item item_id item_data db =
    if refuses_update (load item_id r) new then (inl DataError, db)
    else (inr new, {| items := <[item_id := columns new]> (items db);
                      items_id_seq := items_id_seq db |}).
Proof.
  intros Hr. pose proof (lookup_in_int4 _ _ _ Hr) as Hk.
  apply lookup_item_row in Hr. eexists. split; [done|].
  assert (ItemDB.id (foldl ItemDB.setattr (load item_id r)
            (ItemUpdate.model_dump_exclude_unset item_data)) = Some item_id) as Hid.
  { by rewrite patched_id. }
  split; [done|].
  rewrite (patch_item_found _ _ _ _ Hr). by apply commit_same_id.
Qed.

Lemma get_items_incomplete k r db :
  items db !! k = Some r → ¬ complete r →
  app GET_items db = (internal_server_error, db).
Proof.
  intros Hr Hc. rewrite get_items_all. unfold respond, response_List_Item.
  destruct (mapM response_Item _) as [l|] eqn:Hl; [|done].
  exfalso. apply mk_is_Some, mapM_is_Some in Hl.
  rewrite Forall_fmap, Forall_forall in Hl.
  apply elem_of_table_to_list, Hl in Hr. simpl in Hr.
  by apply response_Item_complete in Hr.
Qed.

(** The value [ItemUpdate] holds for a field the body sets to null. *)
Lemma ItemUpdate_null members item_data f :
  ItemUpdate.model_validate (JObj members) = inr item_data →
  f ≠ f_id → dict_get (field_name f) members = Some JNull →
  f ∈ ItemUpdate.model_fields_set item_data ∧
  ItemDB.getattr
    {| ItemDB.id := None; ItemDB.name := ItemUpdate.name item_data;
       ItemDB.description := ItemUpdate.description item_data;
       ItemDB.price := ItemUpdate.price item_data;
       ItemDB.available := ItemUpdate.available item_data |} f =
  ItemDB.getattr ItemDB.new f.
Proof.
  intros Hvalid Hf Hnull. split.
  { rewrite (ItemUpdate_fields_set members) by done. by rewrite Hnull. }
  revert Hvalid. unfold ItemUpdate.model_validate.
  destruct (_ ++ _) as [|e errs]; [|done]. intros [= <-].
  destruct f; try done; simpl; unfold parse; by rewrite Hnull.
Qed.

(** The server refuses no UPDATE that [patch_item] makes from a body whose
    texts it stores. *)
Lemma patch_item_stored old item_data :
  from_option stores_name true (ItemUpdate.name item_data) = true →
  from_option stores_description true (ItemUpdate.description item_data) = true →
  refuses_update old
    (foldl ItemDB.setattr old (ItemUpdate.model_dump_exclude_unset item_data)) = false.
Proof.
  intros Hn Hd. set (new := foldl _ _ _).
  pose proof (patched_id old item_data) as Hid. fold new in Hid.
  assert (ItemDB.name new = ItemUpdate.name item_data ∨
          ItemDB.name new = ItemDB.name old) as Hname.
  { pose proof (patched_attr old item_data f_name) as H. fold new in H.
    case_decide; simpl in H; injection H as H; auto. }
  assert (ItemDB.description new = ItemUpdate.description item_data ∨
          ItemDB.description new = ItemDB.description old) as Hdesc.
  { pose proof (patched_attr old item_data f_description) as H. fold new in H.
    case_decide; simpl in H; injection H as H; auto. }
  unfold refuses_update. rewrite Hid.
  rewrite (bool_decide_false (_ ≠ _)) by (by intros []). cbn [andb orb].
  apply orb_false_intro.
  - destruct Hname as [-> | ->].
    + rewrite Hn. apply andb_false_r.
    + by rewrite bool_decide_false by (by intros []).
  - destruct Hdesc as [-> | ->].
    + rewrite Hd. apply andb_false_r.
    + by rewrite bool_decide_false by (by intros []).
Qed.

(** X5.  A PATCH that sets [name], [price] or [available] of a stored item
    to null, with a body whose texts the server stores, is committed and
    then answered 500, because the response model refuses the row; from
    then on GET on that id and GET /items are answered 500 too. *)
Theorem patch_item_null item_id members item_data db r f :
  items db !! item_id = Some r →
  f = f_name ∨ f = f_price ∨ f = f_available →
  dict_get (field_name f) members = Some JNull →
  ItemUpdate.model_validate (JObj members) = inr item_data →
  from_option stores_name true (ItemUpdate.name item_data) = true →
  from_option stores_description true (ItemUpdate.description item_data) = true →
  ∃ db',
    app (PATCH_item item_id (JObj members)) db = (internal_server_error, db') ∧
    (∃ r', items db' !! item_id = Some r' ∧ ¬ complete r') ∧
    app (GET_item item_id) db' = (internal_server_error, db') ∧
    app GET_items db' = (internal_server_error, db').
Proof.
  intros Hr Hf Hnull Hvalid Hsn Hsd.
  pose proof (lookup_in_int4 _ _ _ Hr) as Hk.
  destruct (patch_item_row item_id item_data db r Hr) as (new & Hnew & Hid & Hpatch).
  rewrite Hnew, patch_item_stored, <- Hnew in Hpatch by done.
  assert (f ≠ f_id) as Hne by (by destruct Hf as [->|[->| ->]]).
  destruct (ItemUpdate_null _ _ _ Hvalid Hne Hnull) as [Hset Hval].
  pose proof (patched_attr (load item_id r) item_data f) as Hattr.
  rewrite <- Hnew, decide_True, Hval in Hattr by done.
  assert (¬ complete (columns new)) as Hc.
  { unfold complete. simpl.
    destruct Hf as [->|[->| ->]]; simpl in Hattr; injection Hattr as ->;
      intros (? & ? & ?); by eapply is_Some_None. }
  set (db' := {| items := <[item_id:=columns new]> (items db);
                 items_id_seq := items_id_seq db |}) in *.
  assert (items db' !! item_id = Some (columns new)) as Hrow.
  { by apply table_lookup_insert_eq. }
  exists db'. split_and!.
  - unfold app. rewrite Hvalid, Hpatch. unfold respond.
    destruct (response_Item new) eqn:Hj; [|done].
    destruct Hc. apply (response_Item_complete item_id).
    rewrite load_columns by done. by rewrite Hj.
  - eauto.
  - rewrite (get_item_found item_id (columns new)) by done. unfold respond.
    destruct (response_Item _) eqn:Hj; [|done].
    destruct Hc. apply (response_Item_complete item_id). by rewrite Hj.
  - by apply (get_items_incomplete item_id (columns new)).
Qed.

(** X6.  A PATCH whose body holds none of the five keys is a GET: the same
    response, and the database as it was. *)
Theorem patch_item_nothing_set item_id members db :
  (∀ f, dict_get (field_name f) members = None) →
  app (PATCH_item item_id (JObj members)) db = app (GET_item item_id) db.
Proof.
  intros Hnone.
  assert (∃ item_data, ItemUpdate.model_validate (JObj members) = inr item_data ∧
                       ItemUpdate.model_fields_set item_data = []) as (data & Hvalid & Hset).
  { unfold ItemUpdate.model_validate, parse.
    rewrite (Hnone f_name), (Hnone f_description), (Hnone f_price), (Hnone f_available).
    simpl. eauto. }
  unfold app at 1. rewrite Hvalid.
  destruct (items db !! item_id) as [r|] eqn:Hr.
  - destruct (patch_item_row item_id data db r Hr) as (new & Hnew & Hid & ->).
    assert (new = load item_id r) as ->.
    { apply ItemDB_getattr_inj. intros f. rewrite Hnew, patched_attr.
      rewrite decide_False; [done|]. rewrite Hset. by intros [?%elem_of_nil _]. }
    rewrite refuses_update_same.
    rewrite (get_item_found item_id r) by done.
    replace (columns (load item_id r)) with r by by destruct r.
    rewrite table_insert_id by done. by destruct db.
  - unfold app, patch_item, get_item, bind.
    destruct (in_int4 item_id) eqn:Hk.
    + by rewrite scalar_one_or_none_missing.
    + by rewrite scalar_one_or_none_refused.
Qed.

(** X7.  PATCH, and PUT with a body that has no id key, are idempotent:
    sending the same request again gives the same response and the same
    database. *)
Theorem update_twice req db :
  (∃ item_id body, req = PATCH_item item_id body ∨
                   req = PUT_item item_id body ∧ ¬ carries_id req) →
  app req (app req db).2 = app req db.
Proof.
  intros (item_id & body & [->|[-> Hid]]).
  - unfold app. destruct (ItemUpdate.model_validate body) as [errs|data]; [done|].
    destruct (items db !! item_id) as [r|] eqn:Hr.
    + pose proof (lookup_in_int4 _ _ _ Hr) as Hk.
      destruct (patch_item_row item_id data db r Hr) as (new & Hnew & Hidn & Hpatch).
      revert Hpatch. destruct (refuses_update (load item_id r) new);
        intros Hpatch; rewrite Hpatch, respond_snd; cbn [snd]; [by rewrite Hpatch|].
      set (db' := {| items := _; items_id_seq := _ |}).
      assert (items db' !! item_id = Some (columns new)) as Hr'
        by by apply table_lookup_insert_eq.
      destruct (patch_item_row item_id data db' _ Hr') as (new' & Hnew' & _ & ->).
      rewrite load_columns in Hnew' |- * by done.
      rewrite Hnew, foldl_setattr_twice, <- Hnew in Hnew'. subst new'.
      rewrite refuses_update_same.
      unfold db'. simpl. by rewrite table_insert_insert_eq.
    + assert (patch_item item_id data db =
              (inl (if in_int4 item_id then HTTPException 404 "Item not found"
                    else DataError), db)) as Hpatch.
      { unfold patch_item, bind. destruct (in_int4 item_id) eqn:Hk.
        - by rewrite scalar_one_or_none_missing.
        - by rewrite scalar_one_or_none_refused. }
      rewrite Hpatch, respond_snd. cbn [snd]. by rewrite Hpatch.
  - unfold app. destruct (Item.model_validate body) as [errs|item] eqn:Hvalid; [done|].
    destruct (Item_validate_object _ _ Hvalid) as [members ->].
    assert (f_id ∉ Item.model_fields_set item) as Hset.
    { rewrite (Item_fields_set members) by done. done. }
    destruct (items db !! item_id) as [r|] eqn:Hr.
    + pose proof (lookup_in_int4 _ _ _ Hr) as Hk.
      pose proof (lookup_item_row _ _ _ Hr) as Hold.
      pose proof (update_item_found _ item _ _ Hold) as Hupdate.
      set (new := foldl _ _ _) in Hupdate.
      assert (ItemDB.id new = Some item_id) as Hidn.
      { unfold new. by rewrite updated_id, decide_False. }
      rewrite (commit_same_id _ _ _ _ Hk Hidn) in Hupdate.
      revert Hupdate. destruct (refuses_update (load item_id r) new);
        intros Hupdate; rewrite Hupdate, respond_snd; cbn [snd]; [by rewrite Hupdate|].
      set (db' := {| items := _; items_id_seq := _ |}).
      assert (lookup_item item_id db' = Some new) as Hold'.
      { by apply lookup_item_insert. }
      rewrite (update_item_found _ _ _ _ Hold').
      replace (foldl ItemDB.setattr new (Item.model_dump_exclude_unset item)) with new
        by (unfold new; by rewrite foldl_setattr_twice).
      rewrite (commit_same_id _ _ _ _ Hk Hidn), refuses_update_same.
      unfold db'. simpl. by rewrite table_insert_insert_eq.
    + assert (update_item item_id item db =
              (inl (if in_int4 item_id then HTTPException 404 "Item not found"
                    else DataError), db)) as Hupdate.
      { unfold update_item, bind. destruct (in_int4 item_id) eqn:Hk.
        - by rewrite scalar_one_or_none_missing.
        - by rewrite scalar_one_or_none_refused. }
      rewrite Hupdate, respond_snd. cbn [snd]. by rewrite Hupdate.
Qed.

(** The JSON of an [Item] with a finite price is a body that validates as
    that [Item], with every field set. *)
Lemma to_json_validates item :
  is_finite (Item.price item) = true →
  Item.model_validate (Item.to_json item) =
  inr {| Item.id := Item.id item; Item.name := Item.name item;
         Item.description := Item.description item; Item.price := Item.price item;
         Item.available := Item.available item;
         Item.model_fields_set := [f_id; f_name; f_description; f_price; f_available] |}.
Proof.
  destruct item as [i n d p a s]. cbn [Item.price]. intros Hp.
  unfold Item.to_json, Item.float_to_json, Item.model_validate, parse.
  simpl. rewrite Hp.
  assert (optional validate_int (from_option JInt JNull i) = Some i) as ->.
  { destruct i; simpl; [|done]. by rewrite validate_int_exact. }
  assert (optional validate_str (from_option JStr JNull d) = Some d) as ->.
  { destruct d; simpl; [|done]. by rewrite validate_str_exact. }
  by rewrite validate_str_exact, validate_float_exact, validate_bool_exact.
Qed.

(** X8.  Sending the body GET answered for an id back with PUT on that id,
    when the price it shows is not null, changes nothing and is answered
    with the same body. *)
Theorem put_back item_id db j :
  app (GET_item item_id) db = (ok j, db) →
  (∀ members, j = JObj members → dict_get "price" members ≠ Some JNull) →
  app (PUT_item item_id j) db = (ok j, db).
Proof.
  intros Hget Hprice. destruct (items db !! item_id) as [r|] eqn:Hr.
  2: { destruct (in_int4 item_id) eqn:Hk.
       - by rewrite get_item_missing in Hget.
       - by rewrite get_item_refused in Hget. }
  pose proof (lookup_in_int4 _ _ _ Hr) as Hk.
  rewrite (get_item_found item_id r) in Hget by done. unfold respond in Hget.
  destruct (response_Item (load item_id r)) as [j'|] eqn:Hj; [|done].
  injection Hget as ->. unfold response_Item in Hj.
  destruct (from_attributes (load item_id r)) as [item|] eqn:Hitem; [|done].
  injection Hj as <-.
  assert (is_finite (Item.price item) = true) as Hfinite.
  { destruct (is_finite (Item.price item)) eqn:Hp; [done|].
    destruct (Hprice _ eq_refl). simpl. unfold Item.float_to_json. by rewrite Hp. }
  unfold app. rewrite to_json_validates by done.
  rewrite (update_item_found _ _ _ _ (lookup_item_row _ _ _ Hr)).
  set (new := foldl _ _ _).
  assert (new = load item_id r) as ->.
  { apply ItemDB_getattr_inj. intros f. unfold new. rewrite updated_attr. simpl.
    rewrite decide_True by (destruct f; set_solver).
    unfold from_attributes in Hitem. simpl in Hitem.
    destruct r as [[n|] d [p|] [a|]]; simpl in Hitem; try done.
    injection Hitem as <-. by destruct f. }
  rewrite commit_same_id, refuses_update_same by done.
  replace (columns (load item_id r)) with r by by destruct r.
  rewrite table_insert_id by done. unfold respond, response_Item. rewrite Hitem.
  by destruct db.
Qed.

(** X9.  A PUT on a stored item whose body names the id of another stored
    item is answered 500 and leaves the database as it was. *)
Theorem update_item_taken_id item_id members item db k :
  is_Some (items db !! item_id) →
  Item.model_validate (JObj members) = inr item →
  is_Some (dict_get "id" members) →
  Item.id item = Some k →
  k ≠ item_id →
  is_Some (items db !! k) →
  app (PUT_item item_id (JObj members)) db = (internal_server_error, db).
Proof.
  intros [r Hr] Hvalid Hid Hk Hne [r' Hr'].
  unfold app. rewrite Hvalid.
  rewrite (update_item_found _ _ _ _ (lookup_item_row _ _ _ Hr)).
  unfold bind, commit_dirty. destruct (refuses_update _ _); [done|].
  rewrite updated_id, decide_True, Hk.
  - rewrite decide_False by done. by rewrite Hr'.
  - by rewrite (Item_fields_set members).
Qed.

(** X14.  A second DELETE of the same id changes nothing, whatever the
    first was answered; it is answered 404 when the integer column can hold
    the id, and 500 when it cannot. *)
Theorem delete_twice item_id db :
  app (DELETE_item item_id) (app (DELETE_item item_id) db).2 =
  (if in_int4 item_id then not_found else internal_server_error,
   (app (DELETE_item item_id) db).2).
Proof.
  destruct (in_int4 item_id) eqn:Hk; [|by apply delete_item_refused].
  apply delete_item_missing; [done|].
  destruct (items db !! item_id) as [r|] eqn:Hr.
  - rewrite delete_item_found by eauto. apply table_lookup_delete_eq.
  - by rewrite delete_item_missing.
Qed.

(** X15.  A create answered 200 adds exactly one row, under the id it shows,
    which had no row before; no stored row is replaced or removed. *)
Theorem create_item_adds_one_row body db :
  status (app (POST_items body) db).1 = 200 →
  ∃ k r,
    response_id (app (POST_items body) db).1 = Some k ∧
    items db !! k = None ∧
    items (app (POST_items body) db).2 = <[k := r]> (items db) ∧
    size (items (app (POST_items body) db).2) = S (size (items db)).
Proof.
  unfold app. destruct (Item.model_validate body) as [errs|item] eqn:Hvalid; [done|].
  destruct (Item_required_set _ _ Hvalid) as [Hn Hp].
  destruct (create_item item db) as [e db1] eqn:Hc.
  apply create_item_outcome in Hc
    as [(x & -> & Hx & _)|(k & r & -> & Hr & Hfree & Hi & _ & Hk)];
    [by rewrite respond_exception| |done..].
  intros _. exists k, r.
  destruct (respond_complete k r db1 Hr) as (j & -> & Hj). simpl. rewrite Hi.
  split_and!; [|done..|by apply table_size_insert_None].
  unfold response_Item, from_attributes in Hj. simpl in Hj.
  destruct (c_name r), (c_price r), (c_available r); try done.
  by injection Hj as <-.
Qed.

(** X13.  Only a create, or a PUT whose body has an id key, can bring an id
    into the table: after any other request every id that has a row had
    one before. *)
Theorem no_new_ids req db :
  (∀ body, req ≠ POST_items body) →
  ¬ carries_id req →
  dom (items (app req db).2) ⊆ dom (items db).
Proof.
  intros Hpost Hid.
  destruct req as [| |k|body|k body|k body|k]; unfold app;
    try (destruct (Item.model_validate body) as [errs|item] eqn:Hvalid; [done|]);
    try (destruct (ItemUpdate.model_validate body) as [errs|data] eqn:Hvalid; [done|]);
    rewrite ?respond_snd.
  - done.
  - done.
  - unfold get_item, bind, scalar_one_or_none.
    destruct (in_int4 k); [|done]. by destruct (lookup_item k db).
  - by destruct (Hpost body).
  - destruct (Item_validate_object _ _ Hvalid) as [members ->].
    assert (f_id ∉ Item.model_fields_set item) as Hset.
    { rewrite (Item_fields_set members) by done. done. }
    destruct (items db !! k) as [r|] eqn:Hr.
    + rewrite (update_item_found _ _ _ _ (lookup_item_row _ _ _ Hr)).
      rewrite commit_same_id
        by first [by eapply lookup_in_int4 | by rewrite updated_id, decide_False].
      destruct (refuses_update _ _); [done|].
      simpl. by rewrite table_dom_insert_lookup by eauto.
    + apply lookup_item_None in Hr.
      unfold update_item, bind, scalar_one_or_none. rewrite Hr.
      by destruct (in_int4 k).
  - destruct (items db !! k) as [r|] eqn:Hr.
    + destruct (patch_item_row k data db r Hr) as (new & _ & _ & ->).
      destruct (refuses_update _ _); [done|].
      simpl. by rewrite table_dom_insert_lookup by eauto.
    + apply lookup_item_None in Hr.
      unfold patch_item, bind, scalar_one_or_none. rewrite Hr.
      by destruct (in_int4 k).
  - unfold delete_item, bind, scalar_one_or_none.
    destruct (in_int4 k); [|done].
    destruct (lookup_item k db); [|done]. simpl.
    rewrite table_dom_delete. by apply subseteq_difference_l.
Qed.

Lemma parse_accepted {A} (validate : json → option A) f members :
  (∀ v, dict_get (field_name f) members = Some v → is_Some (validate v)) →
  parse validate f members = Unset ∧ dict_get (field_name f) members = None ∨
  ∃ a, parse validate f members = Set_to a.
Proof.
  intros Hacc. unfold parse. destruct (dict_get _ members) as [v|]; [|by left].
  destruct (Hacc v eq_refl) as [a ->]. eauto.
Qed.

Lemma Item_accepted members :
  (∀ f v, dict_get (field_name f) members = Some v → Item.accepts f v) →
  is_Some (dict_get (field_name f_name) members) →
  is_Some (dict_get (field_name f_price) members) →
  ∃ item, Item.model_validate (JObj members) = inr item.
Proof.
  intros Hacc [vn Hn] [vp Hp]. unfold Item.model_validate.
  destruct (parse_accepted (optional validate_int) f_id members (Hacc f_id))
    as [[-> _]|[? ->]];
  destruct (parse_accepted validate_str f_name members (Hacc f_name))
    as [[_ ?]|[? ->]]; try congruence;
  destruct (parse_accepted (optional validate_str) f_description members
              (Hacc f_description)) as [[-> _]|[? ->]];
  destruct (parse_accepted validate_float f_price members (Hacc f_price))
    as [[_ ?]|[? ->]]; try congruence;
  destruct (parse_accepted validate_bool f_available members (Hacc f_available))
    as [[-> _]|[? ->]]; simpl; eauto.
Qed.

Lemma ItemUpdate_accepted members :
  (∀ f v, dict_get (field_name f) members = Some v → ItemUpdate.accepts f v) →
  ∃ item_data, ItemUpdate.model_validate (JObj members) = inr item_data.
Proof.
  intros Hacc. unfold ItemUpdate.model_validate.
  destruct (parse_accepted (optional validate_str) f_name members (Hacc f_name))
    as [[-> _]|[? ->]];
  destruct (parse_accepted (optional validate_str) f_description members
              (Hacc f_description)) as [[-> _]|[? ->]];
  destruct (parse_accepted (optional validate_float) f_price members (Hacc f_price))
    as [[-> _]|[? ->]];
  destruct (parse_accepted (optional validate_bool) f_available members
              (Hacc f_available)) as [[-> _]|[? ->]]; simpl; eauto.
Qed.

Lemma Item_accepts_dec f v : Item.accepts f v ∨ ¬ Item.accepts f v.
Proof.
  destruct f; simpl;
    match goal with |- is_Some ?o ∨ _ => destruct o; [left; eauto|right; by intros [??]] end.
Qed.

Lemma ItemUpdate_accepts_dec f v : ItemUpdate.accepts f v ∨ ¬ ItemUpdate.accepts f v.
Proof.
  destruct f; simpl; [by left|..];
    match goal with |- is_Some ?o ∨ _ => destruct o; [left; eauto|right; by intros [??]] end.
Qed.

(** X10.  A create or PUT body validates exactly when it holds [name] and
    [price] and every field it holds is accepted by the field's type; a
    PATCH body validates exactly when every field it holds is accepted. *)
Theorem body_validates_iff item_id members :
  (validation_errors (PUT_item item_id (JObj members)) = None ↔
   (∀ f v, dict_get (field_name f) members = Some v → Item.accepts f v) ∧
   is_Some (dict_get (field_name f_name) members) ∧
   is_Some (dict_get (field_name f_price) members)) ∧
  (validation_errors (PATCH_item item_id (JObj members)) = None ↔
   ∀ f v, dict_get (field_name f) members = Some v → ItemUpdate.accepts f v).
Proof.
  unfold validation_errors. split; split.
  - intros Hvalid. split_and!.
    + intros f v Hget. destruct (Item_accepts_dec f v) as [|Hno]; [done|].
      destruct (Item_wrong_type members f v Hget Hno) as (errs & Herrs & _).
      by rewrite Herrs in Hvalid.
    + destruct (dict_get (field_name f_name) members) eqn:Hget; [by eauto|].
      destruct (Item_missing_required members f_name) as (errs & Herrs & _); [by left|done|].
      by rewrite Herrs in Hvalid.
    + destruct (dict_get (field_name f_price) members) eqn:Hget; [by eauto|].
      destruct (Item_missing_required members f_price) as (errs & Herrs & _); [by right|done|].
      by rewrite Herrs in Hvalid.
  - intros (Hacc & Hn & Hp).
    by destruct (Item_accepted members Hacc Hn Hp) as [item ->].
  - intros Hvalid f v Hget. destruct (ItemUpdate_accepts_dec f v) as [|Hno]; [done|].
    destruct (ItemUpdate_wrong_type members f v Hget Hno) as (errs & Herrs & _).
    by rewrite Herrs in Hvalid.
  - intros Hacc. by destruct (ItemUpdate_accepted members Hacc) as [item ->].
Qed.

Lemma respond_status {A} (encode : A → option json) outcome :
  (∀ s d, outcome.1 ≠ inl (HTTPException s d)) →
  status (respond encode outcome).1 = 200 ∨ status (respond encode outcome).1 = 500.
Proof.
  destruct outcome as [e db]. intros He. destruct e as [x|a]; simpl.
  - destruct x; eauto. by destruct (He status_code detail).
  - destruct (encode a); eauto.
Qed.

Lemma app_status req db :
  match validation_errors req with
  | Some _ => status (app req db).1 = 422
  | None =>
      match addressed req with
      | Some k =>
          if in_int4 k then
            match items db !! k with
            | None => status (app req db).1 = 404
            | Some _ => status (app req db).1 = 200 ∨ status (app req db).1 = 500
            end
          else status (app req db).1 = 500
      | None => status (app req db).1 = 200 ∨ status (app req db).1 = 500
      end
  end.
Proof.
  destruct req as [| |k|body|k body|k body|k]; cbn [addressed].
  - by left.
  - apply respond_status. done.
  - cbn [validation_errors].
    destruct (in_int4 k) eqn:Hk; [|by rewrite get_item_refused].
    destruct (items db !! k) as [r|] eqn:Hr.
    + rewrite (get_item_found k r db Hr). by apply respond_status.
    + by rewrite get_item_missing.
  - unfold validation_errors, app.
    destruct (Item.model_validate body) as [errs|item]; [done|].
    destruct (create_item item db) as [e db1] eqn:Hc.
    apply respond_status. simpl. intros s d ->.
    unfold create_item in Hc.
    by apply commit_add_refresh in Hc
      as [(exc & [= <-] & _ & [[? _]|[? _]])|(? & ? & _)].
  - destruct (validation_errors (PUT_item k body)) as [errs|] eqn:Hv.
    { by rewrite (validation_errors_unprocessable _ _ errs). }
    destruct (in_int4 k) eqn:Hk; [|by rewrite update_item_refused].
    destruct (items db !! k) as [r|] eqn:Hr; [|by rewrite update_item_missing].
    unfold validation_errors in Hv. unfold app.
    destruct (Item.model_validate body) as [errs|item]; [done|].
    rewrite (update_item_found _ _ _ _ (lookup_item_row _ _ _ Hr)).
    destruct (bind _ refresh db) as [e db1] eqn:Hc.
    apply respond_status. simpl. intros s d ->.
    by apply commit_dirty_refresh in Hc
      as [[_ [[_ ?]|[(_ & _ & ?)|(_ & ? & _ & _ & _ & ?)]]]|(_ & ? & _ & _ & ? & _)];
      [..|by apply lookup_item_row].
  - destruct (validation_errors (PATCH_item k body)) as [errs|] eqn:Hv.
    { by rewrite (validation_errors_unprocessable _ _ errs). }
    destruct (in_int4 k) eqn:Hk; [|by rewrite patch_item_refused].
    destruct (items db !! k) as [r|] eqn:Hr; [|by rewrite patch_item_missing].
    unfold validation_errors in Hv. unfold app.
    destruct (ItemUpdate.model_validate body) as [errs|data]; [done|].
    destruct (patch_item_row k data db r Hr) as (new & _ & _ & ->).
    apply respond_status. by destruct (refuses_update _ _).
  - cbn [validation_errors].
    destruct (in_int4 k) eqn:Hk; [|by rewrite delete_item_refused].
    destruct (items db !! k) as [r|] eqn:Hr.
    + rewrite (delete_item_found k db (mk_is_Some _ _ Hr)). by left.
    + by rewrite delete_item_missing.
Qed.

(** X11.  The status of a response is 200, 404, 422 or 500.  It is 422
    exactly when the body has validation errors, and 404 exactly when the
    body has none and the id in the path is one the integer column can hold
    and has no row. *)
Theorem status_codes req db :
  (status (app req db).1 = 200 ∨ status (app req db).1 = 404 ∨
   status (app req db).1 = 422 ∨ status (app req db).1 = 500) ∧
  (status (app req db).1 = 422 ↔ is_Some (validation_errors req)) ∧
  (status (app req db).1 = 404 ↔
   validation_errors req = None ∧
   ∃ item_id, addressed req = Some item_id ∧ in_int4 item_id = true ∧
              items db !! item_id = None).
Proof.
  pose proof (app_status req db) as Hs.
  destruct (validation_errors req) as [errs|].
  { rewrite Hs. split; [by eauto|].
    split; split; first [done | by eauto | by intros [? _]]. }
  assert (¬ is_Some (@None errors)) as Hnone by (by intros [??]).
  destruct (addressed req) as [k|].
  - destruct (in_int4 k) eqn:Hk.
    + destruct (items db !! k) as [r|] eqn:Hr.
      * split; [by destruct Hs; eauto|]. split; split.
        -- by destruct Hs as [-> | ->].
        -- done.
        -- by destruct Hs as [-> | ->].
        -- intros (_ & k' & [= <-] & _ & ?). congruence.
      * rewrite Hs. split; [by eauto|]. split; split; first [done | by eauto].
    + rewrite Hs. split; [by eauto|]. split; split; try done.
      intros (_ & k' & [= <-] & ? & _). congruence.
  - split; [by destruct Hs; eauto|]. split; split.
    + by destruct Hs as [-> | ->].
    + done.
    + by destruct Hs as [-> | ->].
    + by intros (_ & k' & ? & _).
Qed.

Lemma serve_seq_mono reqs : ∀ db,
  items_id_seq db ≤ items_id_seq (serve reqs db).2.
Proof.
  induction reqs as [|req reqs IH]; intros db; [done|]. simpl.
  pose proof (items_id_seq_mono req db) as Hreq.
  destruct (app req db) as [resp db1]. specialize (IH db1).
  destruct (serve reqs db1) as [resps db2]. simpl in *. lia.
Qed.

Lemma created_id_next body db k :
  ¬ carries_id (POST_items body) →
  response_id (app (POST_items body) db).1 = Some k →
  k = items_id_seq db + 1.
Proof.
  intros Hreq. unfold app.
  destruct (Item.model_validate body) as [errs|item] eqn:Hvalid; [done|].
  destruct (Item_validate_object _ _ Hvalid) as [members ->].
  assert (f_id ∉ Item.model_fields_set item) as Hset.
  { rewrite (Item_fields_set members) by done. done. }
  unfold create_item.
  destruct (bind _ refresh db) as [e db1] eqn:Hc.
  pose proof (init_id item) as Hid. rewrite decide_False in Hid by done.
  apply commit_add_refresh in Hc
    as [(exc & -> & _)|(k' & -> & _ & _ & _ & [[? _]|(_ & -> & Hs)] & _)];
    try congruence.
  - by rewrite respond_error_id.
  - intros Hk.
    destruct (decide (k = items_id_seq db + 1)) as [|Hne]; [done|].
    by eapply response_Item_other in Hk; [|simpl; congruence].
Qed.

(** X12.  The ids given to creates whose bodies name none increase: a later
    such create is given a larger id than an earlier one, whatever requests
    are served in between. *)
Theorem generated_ids_increase body1 body2 reqs db k1 k2 :
  ¬ carries_id (POST_items body1) →
  ¬ carries_id (POST_items body2) →
  response_id (app (POST_items body1) db).1 = Some k1 →
  response_id
    (app (POST_items body2)
       (serve reqs (app (POST_items body1) db).2).2).1 = Some k2 →
  k1 < k2.
Proof.
  intros H1 H2 Hk1 Hk2%created_id_next; [|done].
  destruct (app (POST_items body1) db) as [resp db1] eqn:Happ.
  apply (created_id_from_sequence _ _ _ _ _ H1 Happ) in Hk1.
  pose proof (serve_seq_mono reqs db1). simpl in Hk2. lia.
Qed.
End further.

(** * The further properties at concrete requests *)

Lemma single_complete k n p : all_complete (single k (plain_row n p)).
Proof.
  intros k' r. unfold single. simpl.
  intros [_ <-]%table_lookup_singleton_Some. repeat split; by eexists.
Qed.

(** X1 at a concrete request. *)
Lemma get_item_of_row_witness :
  items (single 1 nameless_row) !! 1 = Some nameless_row ∧
  (complete nameless_row →
   ∃ j, app (scalars:=exact_types) (GET_item 1) (single 1 nameless_row) =
          (ok j, single 1 nameless_row) ∧
        response_Item (load 1 nameless_row) = Some j ∧
        response_id (ok j) = Some 1) ∧
  (¬ complete nameless_row →
   app (scalars:=exact_types) (GET_item 1) (single 1 nameless_row) =
   (internal_server_error, single 1 nameless_row)).
Proof.
  split; [reflexivity|].
  exact (get_item_of_row (scalars:=exact_types) 1 nameless_row
           (single 1 nameless_row) eq_refl).
Defined.

(** X2 at a concrete request. *)
Lemma get_items_lists_rows_witness :
  ∃ l, app (scalars:=exact_types) GET_items (single 1 (plain_row "A" 10)) =
         (ok (JArr l), single 1 (plain_row "A" 10)) ∧
       length l = size (items (single 1 (plain_row "A" 10))) ∧
       ∀ j, j ∈ l ↔
            ∃ k, is_Some (items (single 1 (plain_row "A" 10)) !! k) ∧
                 app (scalars:=exact_types) (GET_item k) (single 1 (plain_row "A" 10)) =
                 (ok j, single 1 (plain_row "A" 10)).
Proof.
  exact (get_items_lists_rows (scalars:=exact_types) (single 1 (plain_row "A" 10))
           (single_complete 1 "A" 10)).
Defined.

(** X3 at a concrete request. *)
Lemma complete_rows_kept_witness :
  all_complete (app (scalars:=exact_types) (POST_items test_item)
                  (single 1 (plain_row "A" 10))).2.
Proof.
  exact (complete_rows_kept (scalars:=exact_types) (POST_items test_item)
           (single 1 (plain_row "A" 10)) (single_complete 1 "A" 10)
           (λ item_id body H, eq_ind (POST_items test_item)
              (λ r, match r with POST_items _ => True | _ => False end) I _ H)).
Defined.

(** X4 at a concrete request. *)
Lemma error_writes_no_row_witness :
  status (app (scalars:=exact_types) (POST_items (with_id 1 "B" 20))
            (single 1 (plain_row "A" 10))).1 ≠ 200 ∧
  items (app (scalars:=exact_types) (POST_items (with_id 1 "B" 20))
           (single 1 (plain_row "A" 10))).2 =
  items (single 1 (plain_row "A" 10)).
Proof.
  assert (status (app (scalars:=exact_types) (POST_items (with_id 1 "B" 20))
            (single 1 (plain_row "A" 10))).1 ≠ 200) as Hstatus.
  { vm_compute. discriminate. }
  split; [exact Hstatus|].
  exact (error_writes_no_row (scalars:=exact_types) (POST_items (with_id 1 "B" 20))
           (single 1 (plain_row "A" 10)) (single_complete 1 "A" 10)
           (λ item_id body H, eq_ind (POST_items (with_id 1 "B" 20))
              (λ r, match r with POST_items _ => True | _ => False end) I _ H)
           Hstatus).
Defined.

(** X5 at a concrete request. *)
Lemma patch_item_null_witness :
  ∃ db',
    app (scalars:=exact_types) (PATCH_item 1 (JObj null_name))
      (single 1 (plain_row "A" 10)) = (internal_server_error, db') ∧
    (∃ r', items db' !! 1 = Some r' ∧ ¬ complete r') ∧
    app (scalars:=exact_types) (GET_item 1) db' = (internal_server_error, db') ∧
    app (scalars:=exact_types) GET_items db' = (internal_server_error, db').
Proof.
  exact (patch_item_null (scalars:=exact_types) 1 null_name
           (ItemUpdate.mk None None None None [f_name])
           (single 1 (plain_row "A" 10)) (plain_row "A" 10) f_name
           eq_refl (or_introl eq_refl) eq_refl eq_refl eq_refl eq_refl).
Defined.

(** X6 at a concrete request. *)
Lemma patch_item_nothing_set_witness :
  app (scalars:=exact_types) (PATCH_item 1 (JObj [])) (single 1 (plain_row "A" 10)) =
  app (scalars:=exact_types) (GET_item 1) (single 1 (plain_row "A" 10)).
Proof.
  exact (patch_item_nothing_set (scalars:=exact_types) 1 []
           (single 1 (plain_row "A" 10)) (λ f, eq_refl)).
Defined.

(** X7 at a concrete request. *)
Lemma update_twice_witness :
  app (scalars:=exact_types) (PUT_item 1 (JObj updated_body))
    (app (scalars:=exact_types) (PUT_item 1 (JObj updated_body))
       (single 1 stored_row)).2 =
  app (scalars:=exact_types) (PUT_item 1 (JObj updated_body)) (single 1 stored_row).
Proof.
  apply (update_twice (scalars:=exact_types)).
  exists 1, (JObj updated_body). right. split; [reflexivity|].
  simpl. by intros [??].
Defined.

(** X8 at a concrete request. *)
Lemma put_back_witness :
  app (scalars:=exact_types) (GET_item 1) (single 1 (plain_row "A" 10)) =
    (shown 1 "A" 10, single 1 (plain_row "A" 10)) ∧
  app (scalars:=exact_types)
    (PUT_item 1 (JObj [("id"%string, JInt 1); ("name"%string, JStr "A");
                       ("description"%string, JNull); ("price"%string, JFloat 10);
                       ("available"%string, JBool true)]))
    (single 1 (plain_row "A" 10)) =
  (shown 1 "A" 10, single 1 (plain_row "A" 10)).
Proof.
  split; [reflexivity|].
  apply (put_back (scalars:=exact_types) 1 (single 1 (plain_row "A" 10)));
    [reflexivity|].
  intros members [= <-]. vm_compute. discriminate.
Defined.

(** X9 at a concrete request. *)
Lemma update_item_taken_id_witness :
  is_Some (items two_rows !! 1) ∧ is_Some (items two_rows !! 2) ∧
  app (scalars:=exact_types) (PUT_item 1 (with_id 2 "A" 10)) two_rows =
  (internal_server_error, two_rows).
Proof.
  split; [exact (mk_is_Some _ _ eq_refl)|]. split; [exact (mk_is_Some _ _ eq_refl)|].
  exact (update_item_taken_id (scalars:=exact_types) 1
           [("id"%string, JInt 2); ("name"%string, JStr "A"); ("price"%string, JFloat 10)]
           (Item.mk (Some 2) "A" None 10 true [f_id; f_name; f_price]) two_rows 2
           (mk_is_Some _ _ eq_refl) eq_refl (mk_is_Some _ _ eq_refl) eq_refl
           ltac:(discriminate) (mk_is_Some _ _ eq_refl)).
Defined.

(** X12 at a concrete request. *)
Lemma generated_ids_increase_witness :
  response_id (app (scalars:=exact_types) (POST_items test_item) create_all).1 = Some 1 ∧
  response_id
    (app (scalars:=exact_types) (POST_items test_item)
       (serve (scalars:=exact_types) [DELETE_item 1; POST_items (with_id 7 "A" 10)]
          (app (scalars:=exact_types) (POST_items test_item) create_all).2).2).1 =
    Some 2 ∧
  1 < 2.
Proof.
  split; [reflexivity|]. split; [reflexivity|].
  exact (generated_ids_increase (scalars:=exact_types) test_item test_item
           [DELETE_item 1; POST_items (with_id 7 "A" 10)] create_all 1 2
           ltac:(simpl; by intros [??]) ltac:(simpl; by intros [??])
           eq_refl eq_refl).
Defined.

(** X13 at a concrete request. *)
Lemma no_new_ids_witness :
  dom (items (app (scalars:=exact_types) (PATCH_item 1 (JObj patch_body)) two_rows).2) ⊆
  dom (items two_rows).
Proof.
  exact (no_new_ids (scalars:=exact_types) (PATCH_item 1 (JObj patch_body)) two_rows
           (λ body H, eq_ind (PATCH_item 1 (JObj patch_body))
              (λ r, match r with PATCH_item _ _ => True | _ => False end) I _ H)
           (λ H, H)).
Defined.

(** X15 at a concrete request. *)
Lemma create_item_adds_one_row_witness :
  status (app (scalars:=exact_types) (POST_items test_item) two_rows).1 = 200 ∧
  ∃ k r,
    response_id (app (scalars:=exact_types) (POST_items test_item) two_rows).1 = Some k ∧
    items two_rows !! k = None ∧
    items (app (scalars:=exact_types) (POST_items test_item) two_rows).2 =
      <[k := r]> (items two_rows) ∧
    size (items (app (scalars:=exact_types) (POST_items test_item) two_rows).2) =
      S (size (items two_rows)).
Proof.
  split; [reflexivity|].
  exact (create_item_adds_one_row (scalars:=exact_types) test_item two_rows eq_refl).
Defined.
